(** * py-cli-game: a shallow embedding of [main.py] and its properties

    The program is a small terminal battle game.  A [Character] object holds
    a name, a maximum and a current number of hit points and an attack power;
    [main] lets the player and one enemy act in turns until one of them has
    no hit points left.

    Python integers are unbounded, so they are [Z].  Python floats are IEEE
    754 binary64 numbers; they are [spec_float] with precision 53 and
    exponent bound 1024, computed with the operations of the Standard
    Library's [SpecFloat].  Python strings are [string]s holding the UTF-8
    encoding of the text.  [Character] objects are mutable and passed by
    reference, so they live in a heap (a list indexed by references).
    Everything the program gets from outside (key presses, lines read by
    [input], results of [random.randint]) is a list of the values the
    successive calls return; everything it prints is appended to a trace. *)

From Stdlib Require Import ZArith String Ascii List Bool Lia.
From Stdlib Require Import Floats.SpecFloat DecimalString.
From stdpp Require Import base tactics option list.
Import ListNotations.

Local Open Scope string_scope.
Local Open Scope Z_scope.

(** ** Errors and results *)

(** The first six are Python exceptions.  The others stop a run of the model
    where Python goes on or waits: [NoKey] when [readchar.readkey] is called
    with no key press left (the program waits for the keyboard), [NoDraw]
    when the list of random draws is used up, [BadRef] for a reference that
    is not in the heap (no Python counterpart: references are always valid),
    [OutOfFuel] when a loop has used its iteration budget. *)
Inductive error :=
  | ZeroDivisionError | OverflowError | ValueError | IndexError | NameError
  | EOFError
  | NoKey | NoDraw | BadRef | OutOfFuel.

Inductive result (A : Type) :=
  | Ok (a : A)
  | Raise (e : error).
Arguments Ok {A} a.
Arguments Raise {A} e.

Definition is_ok {A} (r : result A) : bool :=
  match r with Ok _ => true | Raise _ => false end.

(** ** Python numbers and strings *)

Module Py.

Definition float := spec_float.
Definition prec := 53.
Definition emax := 1024.

(** [float(z)] for an int [z]: the nearest binary64 number, ties to even;
    [OverflowError] when it is out of range. *)
Definition float_of_int (z : Z) : result float :=
  match binary_normalize prec emax z 0 false with
  | S754_infinity _ => Raise OverflowError
  | f => Ok f
  end.

(** [a / b] for ints: CPython returns the correctly rounded quotient
    ([long_true_divide]), also for operands beyond 2^53.  The sign of a
    zero result is the exclusive or of the operands' signs. *)
Definition int_truediv (a b : Z) : result float :=
  if b =? 0 then Raise ZeroDivisionError
  else if a =? 0 then Ok (S754_zero (b <? 0))
  else
    let '(q, e, l) := SFdiv_core_binary prec emax (Z.abs a) 0 (Z.abs b) 0 in
    match binary_round_aux prec emax (xorb (a <? 0) (b <? 0)) q e l with
    | S754_infinity _ => Raise OverflowError
    | f => Ok f
    end.

(** [n * x] for an int [n] and a float [x]: [n] is converted first; the
    product itself overflows to an infinity without an exception. *)
Definition int_mul_float (n : Z) (x : float) : result float :=
  match float_of_int n with
  | Ok fn => Ok (SFmul prec emax fn x)
  | Raise e => Raise e
  end.

(** [int(x)] for a float: truncation toward zero. *)
Definition int_of_float (x : float) : result Z :=
  match x with
  | S754_zero _ => Ok 0
  | S754_infinity _ => Raise OverflowError
  | S754_nan => Raise ValueError
  | S754_finite s m e => Ok (cond_Zopp s (Z.shiftl (Zpos m) e))
  end.

(** The literals [0.5] and [0.25]. *)
Definition float_0_5 : float := S754_finite false 4503599627370496 (-53).
Definition float_0_25 : float := S754_finite false 4503599627370496 (-54).

Definition float_lt (x y : float) : bool := SFltb x y.

(** [str(z)] and [{z}] in an f-string. *)
Definition str (z : Z) : string := NilEmpty.string_of_int (Z.to_int z).

(** [s * n]: [n] copies of [s], none when [n <= 0]. *)
Definition str_mul (s : string) (n : Z) : string :=
  String.concat "" (repeat s (Z.to_nat n)).

(** [s.lower()], on the ASCII letters (the only upper-case letters in the
    menu's options); other bytes are kept. *)
Definition lower_ascii (c : ascii) : ascii :=
  let n := nat_of_ascii c in
  if ((65 <=? n)%nat && (n <=? 90)%nat)%bool then ascii_of_nat (n + 32) else c.

Fixpoint lower (s : string) : string :=
  match s with
  | EmptyString => EmptyString
  | String c s' => String (lower_ascii c) (lower s')
  end.

(** [x in xs] for strings. *)
Definition str_in (x : string) (xs : list string) : bool :=
  existsb (String.eqb x) xs.

Definition ESC : string := String "027"%char "".
Definition CR : string := String "013"%char "".
Definition LF : string := String "010"%char "".

End Py.

(** Constants of the [colorama] package. *)
Module Fore.
Definition RED : string := Py.ESC ++ "[31m".
Definition GREEN : string := Py.ESC ++ "[32m".
Definition YELLOW : string := Py.ESC ++ "[33m".
Definition CYAN : string := Py.ESC ++ "[36m".
End Fore.

Module Style.
Definition RESET_ALL : string := Py.ESC ++ "[0m".
End Style.

(** Constants of the [readchar] package (POSIX values). *)
Module readchar_key.
Definition UP : string := Py.ESC ++ "[A".
Definition DOWN : string := Py.ESC ++ "[B".
Definition ENTER : string := Py.LF.
End readchar_key.

(** ** The heap, the outside world and the monad of the program *)

(** A [Character] object: the attributes [__init__] sets. *)
Module Character.
Record t := mk { name : string; max_hp : Z; hp : Z; ap : Z }.

Definition with_hp (c : t) (v : Z) : t :=
  {| name := name c; max_hp := max_hp c; hp := v; ap := ap c |}.
End Character.

(** A reference to a [Character]: its index in the heap. *)
Definition ref := nat.

Inductive event :=
  | Clear                      (* os.system('cls' or 'clear') *)
  | Print (s : string)         (* print(s) *)
  | Prompt (s : string).       (* the prompt written by input(s) *)

Record World := mkWorld {
  mem : list Character.t;      (* the Character objects *)
  player : option ref;         (* the global variable player *)
  enemy : option ref;          (* the global variable enemy *)
  keys : list string;          (* what the next calls of readchar.readkey return *)
  lines : list string;         (* what the next calls of input return *)
  draws : list Z;              (* what the next calls of random.randint return *)
  out : list event             (* what was written to the terminal, oldest first *)
}.

Definition M (A : Type) : Type := World -> result (A * World).

Definition ret {A} (a : A) : M A := fun w => Ok (a, w).

Definition raise {A} (e : error) : M A := fun _ => Raise e.

Definition bind {A B} (m : M A) (k : A -> M B) : M B :=
  fun w => match m w with
           | Ok (a, w') => k a w'
           | Raise e => Raise e
           end.

Definition lift {A} (r : result A) : M A :=
  fun w => match r with Ok a => Ok (a, w) | Raise e => Raise e end.

Declare Scope py_scope.
Delimit Scope py_scope with py.
Notation "'let*' x ':=' m 'in' k" := (bind m (fun x => k))
  (at level 10, x name, m at level 100, k at level 200) : py_scope.
Notation "m ;; k" := (bind m (fun _ => k))
  (at level 100, k at level 200, right associativity) : py_scope.
Local Open Scope py_scope.

(** *** Heap *)

Definition set_mem (h : list Character.t) (w : World) : World :=
  mkWorld h (player w) (enemy w) (keys w) (lines w) (draws w) (out w).

(** [Character(...)]: a new object, after all the others. *)
Definition alloc (c : Character.t) : M ref :=
  fun w => Ok (length (mem w), set_mem (mem w ++ [c]) w).

Definition load (r : ref) : M Character.t :=
  fun w => match mem w !! r with
           | Some c => Ok (c, w)
           | None => Raise BadRef
           end.

(** [r.hp = v] *)
Definition store_hp (r : ref) (v : Z) : M unit :=
  fun w => match mem w !! r with
           | Some c => Ok (tt, set_mem (<[r := Character.with_hp c v]> (mem w)) w)
           | None => Raise BadRef
           end.

(** *** Globals *)

Definition set_globals (p e : ref) : M unit :=
  fun w => Ok (tt, mkWorld (mem w) (Some p) (Some e) (keys w) (lines w) (draws w) (out w)).

Definition global_player : M ref :=
  fun w => match player w with Some r => Ok (r, w) | None => Raise NameError end.

Definition global_enemy : M ref :=
  fun w => match enemy w with Some r => Ok (r, w) | None => Raise NameError end.

(** *** Terminal and random source *)

Definition emit (ev : event) : M unit :=
  fun w => Ok (tt, mkWorld (mem w) (player w) (enemy w) (keys w) (lines w) (draws w)
                           (out w ++ [ev])).

Definition print (s : string) : M unit := emit (Print s).

Definition os_system_clear : M unit := emit Clear.

(** [readchar.readkey()] *)
Definition readkey : M string :=
  fun w => match keys w with
           | k :: ks => Ok (k, mkWorld (mem w) (player w) (enemy w) ks (lines w) (draws w) (out w))
           | [] => Raise NoKey
           end.

(** [input(prompt)] *)
Definition input (prompt : string) : M string :=
  emit (Prompt prompt) ;;
  fun w => match lines w with
           | l :: ls => Ok (l, mkWorld (mem w) (player w) (enemy w) (keys w) ls (draws w) (out w))
           | [] => Raise EOFError
           end.

(** [random.randint(lo, hi)]: the next draw.  That it lies between [lo] and
    [hi] is a hypothesis of the theorems that need it. *)
Definition randint (lo hi : Z) : M Z :=
  fun w => match draws w with
           | d :: ds => Ok (d, mkWorld (mem w) (player w) (enemy w) (keys w) (lines w) ds (out w))
           | [] => Raise NoDraw
           end.

(** ** class Character *)

(** [Character(name, hp, ap)] *)
Definition new_Character (name : string) (hp ap : Z) : M ref :=
  alloc {| Character.name := name; Character.max_hp := hp;
           Character.hp := hp; Character.ap := ap |}.

Definition attack (self target : ref) : M Z :=
  let* s := load self in
  let damage := Character.ap s in
  let* t := load target in
  store_hp target (Z.max 0 (Character.hp t - damage)) ;;
  ret damage.

Definition heal (self : ref) : M Z :=
  let* heal_amount := randint 10 20 in
  let* s := load self in
  store_hp self (Z.min (Character.max_hp s) (Character.hp s + heal_amount)) ;;
  ret heal_amount.

Definition is_alive (self : ref) : M bool :=
  let* s := load self in
  ret (0 <? Character.hp s).

(** ** get_health_bar *)

(** [percent = hp / max_hp] *)
Definition percent_of (hp max_hp : Z) : result Py.float := Py.int_truediv hp max_hp.

Definition bar_color_of (percent : Py.float) : string :=
  let bar_color := Fore.GREEN in
  let bar_color := if Py.float_lt percent Py.float_0_5 then Fore.YELLOW else bar_color in
  let bar_color := if Py.float_lt percent Py.float_0_25 then Fore.RED else bar_color in
  bar_color.

Definition FULL_BLOCK : string := "█".
Definition LIGHT_HORIZONTAL : string := "─".

(** The third argument is [None] when the caller leaves [length] out. *)
Definition get_health_bar (hp max_hp : Z) (length : option Z) : result string :=
  let length := default 20 length in
  match percent_of hp max_hp with
  | Raise e => Raise e
  | Ok percent =>
    match Py.int_mul_float length percent with
    | Raise e => Raise e
    | Ok x =>
      match Py.int_of_float x with
      | Raise e => Raise e
      | Ok filled_length =>
        let bar_color := bar_color_of percent in
        let bar := bar_color ++ Py.str_mul FULL_BLOCK filled_length ++ Style.RESET_ALL
                   ++ Py.str_mul LIGHT_HORIZONTAL (length - filled_length) in
        Ok ("[" ++ bar ++ "] " ++ Py.str hp ++ "/" ++ Py.str max_hp)
      end
    end
  end.

(** ** display_status *)

Definition display_status (player enemy : ref) : M unit :=
  os_system_clear ;;
  print "--- バトル状況 ---" ;;
  let* p := load player in
  print (Character.name p ++ ":") ;;
  let* bar := lift (get_health_bar (Character.hp p) (Character.max_hp p) None) in
  print ("  HP: " ++ bar) ;;
  print (Py.str_mul "-" 20) ;;
  let* e := load enemy in
  print (Character.name e ++ ":") ;;
  let* bar := lift (get_health_bar (Character.hp e) (Character.max_hp e) None) in
  print ("  HP: " ++ bar) ;;
  print ("--------------------" ++ Py.LF).

(** ** get_player_action *)

(** The nested function [print_options]; [i] is the index of the first
    element of [options] in the whole list. *)
Fixpoint print_options_from (i : Z) (options : list string) (selected_index : Z) : M unit :=
  match options with
  | [] => ret tt
  | option :: rest =>
    (if i =? selected_index
     then print ("> " ++ Fore.CYAN ++ option ++ Style.RESET_ALL)
     else print ("  " ++ option)) ;;
    print_options_from (i + 1) rest selected_index
  end.

Definition print_options (options : list string) (selected_index : Z) : M unit :=
  print_options_from 0 options selected_index.

(** [x % n] for ints *)
Definition py_mod (x n : Z) : M Z :=
  if n =? 0 then raise ZeroDivisionError else ret (x mod n).

(** [options[i]]: a negative index counts from the end. *)
Definition py_index (options : list string) (i : Z) : M string :=
  let n := Z.of_nat (length options) in
  let j := if i <? 0 then i + n else i in
  if (0 <=? j) && (j <? n) then
    match options !! Z.to_nat j with
    | Some o => ret o
    | None => raise IndexError
    end
  else raise IndexError.

(** The [while True] loop of [get_player_action].  Every iteration reads
    one key, so [S (length (keys w))] iterations are never used up. *)
Fixpoint menu_loop (fuel : nat) (options : list string) (selected_index : Z) : M string :=
  match fuel with
  | O => raise OutOfFuel
  | S fuel' =>
    let* p := global_player in
    let* e := global_enemy in
    display_status p e ;;
    print "どうする？" ;;
    print_options options selected_index ;;
    let* pressed_key := readkey in
    if Py.str_in pressed_key [readchar_key.UP; "w"; "W"; Py.ESC ++ "[A"] then
      let* i := py_mod (selected_index - 1) (Z.of_nat (length options)) in
      menu_loop fuel' options i
    else if Py.str_in pressed_key [readchar_key.DOWN; "s"; "S"; Py.ESC ++ "[B"] then
      let* i := py_mod (selected_index + 1) (Z.of_nat (length options)) in
      menu_loop fuel' options i
    else if Py.str_in pressed_key [readchar_key.ENTER; Py.CR] then
      let* o := py_index options selected_index in
      ret (Py.lower o)
    else menu_loop fuel' options selected_index
  end.

Definition get_player_action (options : list string) : M string :=
  fun w => menu_loop (S (length (keys w))) options 0 w.

(** ** main *)

Inductive control := Break | Continue.

Definition CONTINUE_PROMPT : string := Py.LF ++ "続けるにはEnterキーを押してください...".

(** What the player's choice does (lines 96-101). *)
Definition player_acts (action : string) (p e : ref) : M unit :=
  if String.eqb action "attack" then
    let* damage := attack p e in
    let* pc := load p in
    let* ec := load e in
    print (Py.LF ++ Character.name pc ++ " の攻撃！ " ++ Character.name ec ++ " に "
           ++ Py.str damage ++ " のダメージを与えた。")
  else if String.eqb action "heal" then
    let* heal_amount := heal p in
    let* pc := load p in
    print (Py.LF ++ Character.name pc ++ " はHPを " ++ Py.str heal_amount ++ " 回復した。")
  else ret tt.

(** The enemy's half of the round (lines 108-113). *)
Definition enemy_acts (turn : Z) (p e : ref) : M unit :=
  display_status p e ;;
  print ("--- ターン " ++ Py.str turn ++ " ---") ;;
  let* damage := attack e p in
  let* ec := load e in
  let* pc := load p in
  print (Py.LF ++ Character.name ec ++ " の攻撃！ " ++ Character.name pc ++ " は "
         ++ Py.str damage ++ " のダメージを受けた。") ;;
  input CONTINUE_PROMPT ;;
  ret tt.

(** The body of the [while] loop: [Break] for the [break] of line 106,
    [Continue] for the end of the body, where [turn] has been incremented. *)
Definition loop_body (turn : Z) : M (control * Z) :=
  let* p := global_player in
  let* e := global_enemy in
  display_status p e ;;
  print ("--- ターン " ++ Py.str turn ++ " ---") ;;
  let* action := get_player_action ["Attack"; "Heal"] in
  let* p := global_player in
  let* e := global_enemy in
  player_acts action p e ;;
  input CONTINUE_PROMPT ;;
  let* e := global_enemy in
  let* enemy_alive := is_alive e in
  if negb enemy_alive then ret (Break, turn)
  else
    let* p := global_player in
    let* e := global_enemy in
    enemy_acts turn p e ;;
    ret (Continue, turn + 1).

(** [player.is_alive() and enemy.is_alive()] *)
Definition loop_condition : M bool :=
  let* p := global_player in
  let* player_alive := is_alive p in
  if player_alive then
    let* e := global_enemy in
    is_alive e
  else ret false.

(** The [while] loop.  Every iteration that ends has read a key. *)
Fixpoint battle_loop (fuel : nat) (turn : Z) : M unit :=
  match fuel with
  | O => raise OutOfFuel
  | S fuel' =>
    let* go := loop_condition in
    if go then
      let* r := loop_body turn in
      match r with
      | (Break, _) => ret tt
      | (Continue, turn') => battle_loop fuel' turn'
      end
    else ret tt
  end.

(** How the battle ended: which of the last two messages is printed. *)
Inductive ending := PlayerWon | EnemyWon.

(** Lines 116-121, after the loop. *)
Definition finish : M ending :=
  let* p := global_player in
  let* e := global_enemy in
  display_status p e ;;
  let* p := global_player in
  let* player_alive := is_alive p in
  if player_alive then
    let* ec := load e in
    print (Py.LF ++ Character.name ec ++ " を倒した！あなたの勝利です！") ;;
    ret PlayerWon
  else
    let* pc := load p in
    print (Py.LF ++ Character.name pc ++ " は倒れてしまった...あなたの敗北です。") ;;
    ret EnemyWon.

(** Lines 85-87: the two objects and the globals. *)
Definition setup : M unit :=
  let* p := new_Character "あなた" 100 15 in
  let* e := new_Character "スライム" 80 10 in
  set_globals p e.

Definition main : M ending :=
  setup ;;
  let turn := 1 in
  (fun w => battle_loop (S (length (keys w))) turn w) ;;
  finish.

(** The world [main] starts in: no object, no global, nothing printed. *)
Definition start (keys lines : list string) (draws : list Z) : World :=
  mkWorld [] None None keys lines draws [].

(** ** Worlds of the examples *)

(** A at full health and B at 0; the next draw is 15. *)
Definition duel : World :=
  mkWorld [Character.mk "A" 100 100 15; Character.mk "B" 80 0 10]
          (Some 0%nat) (Some 1%nat) [] [] [15] [].

(** One character of 100 hit points at most, now at [hp]; the next draw is 15. *)
Definition wounded (hp : Z) : World :=
  mkWorld [Character.mk "P" 100 hp 15] (Some 0%nat) None [] [] [15] [].

(** ** Sequences of calls *)

(** A call of the constructor or of a mutator, as a test or a caller makes
    them one after the other. *)
Inductive call :=
  | CallNew (name : string) (hp ap : Z)
  | CallAttack (self target : ref)
  | CallHeal (self : ref).

Definition run_call (c : call) : M unit :=
  match c with
  | CallNew name hp ap => new_Character name hp ap ;; ret tt
  | CallAttack self target => attack self target ;; ret tt
  | CallHeal self => heal self ;; ret tt
  end.

Fixpoint run_calls (cs : list call) : M unit :=
  match cs with
  | [] => ret tt
  | c :: cs' => run_call c ;; run_calls cs'
  end.

(** The calls are well formed when [n] objects exist: every reference is to
    an object created before, and the constructor gets a positive [hp] and
    an [ap] that is not negative. *)
Fixpoint script_ok (n : nat) (cs : list call) : Prop :=
  match cs with
  | [] => True
  | CallNew _ hp ap :: cs' => 0 < hp /\ 0 <= ap /\ script_ok (S n) cs'
  | CallAttack self target :: cs' => (self < n)%nat /\ (target < n)%nat /\ script_ok n cs'
  | CallHeal self :: cs' => (self < n)%nat /\ script_ok n cs'
  end.

Fixpoint heals (cs : list call) : nat :=
  match cs with
  | [] => 0%nat
  | CallHeal _ :: cs' => S (heals cs')
  | _ :: cs' => heals cs'
  end.

(** The invariant of the data model. *)
Definition in_range (c : Character.t) : Prop :=
  0 <= Character.hp c <= Character.max_hp c.

Definition combatant (c : Character.t) : Prop :=
  in_range c /\ 0 <= Character.ap c.

Definition sample_calls : list call :=
  [CallNew "A" 100 15; CallNew "B" 80 10; CallAttack 0%nat 1%nat; CallHeal 1%nat;
   CallAttack 1%nat 0%nat; CallHeal 0%nat; CallAttack 0%nat 0%nat].

(** ** The battle of [main] without its terminal output *)

(** The two characters of [main], at given hit points, and the world of the
    battle: it holds these two objects, and the globals refer to them. *)
Definition hero (hp : Z) : Character.t := Character.mk "あなた" 100 hp 15.
Definition slime (hp : Z) : Character.t := Character.mk "スライム" 80 hp 10.

Definition battle (php ehp : Z) (ks ls : list string) (ds : list Z) (o : list event) : World :=
  mkWorld [hero php; slime ehp] (Some 0%nat) (Some 1%nat) ks ls ds o.

Definition is_up (k : string) : bool :=
  Py.str_in k [readchar_key.UP; "w"; "W"; Py.ESC ++ "[A"].
Definition is_down (k : string) : bool :=
  Py.str_in k [readchar_key.DOWN; "s"; "S"; Py.ESC ++ "[B"].
Definition is_enter (k : string) : bool :=
  Py.str_in k [readchar_key.ENTER; Py.CR].

(** What the menu of two options computes from the key presses: the index
    selected when Enter is pressed and the key presses left; [None] when no
    Enter comes. *)
Fixpoint menu_select (selected_index : Z) (ks : list string) : option (Z * list string) :=
  match ks with
  | [] => None
  | k :: ks' =>
    if is_up k then menu_select ((selected_index - 1) mod 2) ks'
    else if is_down k then menu_select ((selected_index + 1) mod 2) ks'
    else if is_enter k then Some (selected_index, ks')
    else menu_select selected_index ks'
  end.

(** The option at index 0 or 1, lower-cased. *)
Definition action_name (i : Z) : string := if i =? 0 then "attack" else "heal".

(** The state of the battle that the loop works on: the two [hp] and what
    is left of the three inputs. *)
Definition battle_state : Type := Z * Z * list string * list string * list Z.

(** The player's half of a round on that state. *)
Definition player_half (i php ehp : Z) (ds : list Z) : result (Z * Z * list Z) :=
  if i =? 0 then Ok (php, Z.max 0 (ehp - 15), ds)
  else match ds with
       | [] => Raise NoDraw
       | d :: ds' => Ok (Z.min 100 (php + d), ehp, ds')
       end.

(** One iteration of the loop on that state. *)
Definition round_model (turn php ehp : Z) (ks ls : list string) (ds : list Z)
  : result (control * Z * battle_state) :=
  match menu_select 0 ks with
  | None => Raise NoKey
  | Some (i, ks') =>
    match player_half i php ehp ds with
    | Raise e => Raise e
    | Ok (php1, ehp1, ds1) =>
      match ls with
      | [] => Raise EOFError
      | _ :: ls1 =>
        if negb (0 <? ehp1) then Ok (Break, turn, (php1, ehp1, ks', ls1, ds1))
        else match ls1 with
             | [] => Raise EOFError
             | _ :: ls2 => Ok (Continue, turn + 1, (Z.max 0 (php1 - 10), ehp1, ks', ls2, ds1))
             end
      end
    end
  end.

(** The loop on that state. *)
Fixpoint battle_model (fuel : nat) (turn php ehp : Z) (ks ls : list string) (ds : list Z)
  : result battle_state :=
  match fuel with
  | O => Raise OutOfFuel
  | S fuel' =>
    if (0 <? php) && (0 <? ehp) then
      match round_model turn php ehp ks ls ds with
      | Raise e => Raise e
      | Ok (Break, _, st) => Ok st
      | Ok (Continue, turn', (php', ehp', ks', ls', ds')) =>
        battle_model fuel' turn' php' ehp' ks' ls' ds'
      end
    else Ok (php, ehp, ks, ls, ds)
  end.

(** ** The battle loop as the specification describes it *)

Module Spec.

Inductive action := Attack | Heal.


(** A Combatant as far as a round goes: health, maximum health and attack
    power. *)
Record combatant := { health : Z; maxHealth : Z; attackPower : Z }.






End Spec.

(** ** strip_ansi (test_main.py) *)

(** The pattern [\x1b\[([0-9]{1,2}(;[0-9]{1,2})?)?[m|K]] is a sequence of
    character classes; the optional and repeated parts give seven shapes,
    listed in the order a backtracking matcher tries them (longest first). *)
Inductive char_class := CEsc | CBracket | CDigit | CSemi | CFinal.

Definition in_class (cl : char_class) (c : ascii) : bool :=
  match cl with
  | CEsc => Ascii.eqb c "027"%char
  | CBracket => Ascii.eqb c "["%char
  | CDigit => let n := nat_of_ascii c in ((48 <=? n)%nat && (n <=? 57)%nat)%bool
  | CSemi => Ascii.eqb c ";"%char
  | CFinal => (Ascii.eqb c "m"%char || Ascii.eqb c "|"%char || Ascii.eqb c "K"%char)%bool
  end.

Definition ansi_shapes : list (list char_class) :=
  map (fun tail => CEsc :: CBracket :: tail)
      [ [CDigit; CDigit; CSemi; CDigit; CDigit; CFinal];
        [CDigit; CDigit; CSemi; CDigit; CFinal];
        [CDigit; CDigit; CFinal];
        [CDigit; CSemi; CDigit; CDigit; CFinal];
        [CDigit; CSemi; CDigit; CFinal];
        [CDigit; CFinal];
        [CFinal] ].

(** Does [s] start with characters of the classes of [shape]? *)
Fixpoint starts_with (shape : list char_class) (s : string) : bool :=
  match shape, s with
  | [], _ => true
  | _ :: _, EmptyString => false
  | cl :: shape', String c s' => in_class cl c && starts_with shape' s'
  end.

(** The length of the match of the pattern at the start of [s], if any. *)
Definition ansi_match (s : string) : option nat :=
  option_map (@length char_class) (find (fun shape => starts_with shape s) ansi_shapes).

(** [re.sub(pattern, '', s)]: the matches are dropped from left to right;
    [skip] characters of a match are still to drop. *)
Fixpoint strip_from (skip : nat) (s : string) : string :=
  match s with
  | EmptyString => EmptyString
  | String c s' =>
    match skip with
    | S k => strip_from k s'
    | O =>
      match ansi_match s with
      | Some (S k) => strip_from k s'
      | _ => String c (strip_from O s')
      end
    end
  end.

Definition strip_ansi (text : string) : string := strip_from 0 text.

(** ** The health bar as the specification describes it *)

Module BarSpec.

(** [floor(length * health / maxHealth)], clamped into [[0, length]]. *)
Definition filledLength (health maxHealth length : Z) : Z :=
  Z.max 0 (Z.min length (length * health / maxHealth)).

(** The filled glyphs, the empty glyphs and the label, without colour
    codes, between the brackets and with the space that [get_health_bar]
    prints around the bar. *)
Definition formatHealthBar (health maxHealth length : Z) : string :=
  let filled := filledLength health maxHealth length in
  "[" ++ Py.str_mul FULL_BLOCK filled ++ Py.str_mul LIGHT_HORIZONTAL (length - filled)
  ++ "] " ++ Py.str health ++ "/" ++ Py.str maxHealth.

Inductive severity := Normal | Warning | Critical.

(** ratio >= 0.5: normal; 0.25 <= ratio < 0.5: warning; ratio < 0.25:
    critical; for a positive [maxHealth], on the exact ratio. *)
Definition classify (health maxHealth : Z) : severity :=
  if 4 * health <? maxHealth then Critical
  else if 2 * health <? maxHealth then Warning
  else Normal.

Definition color (s : severity) : string :=
  match s with
  | Normal => Fore.GREEN
  | Warning => Fore.YELLOW
  | Critical => Fore.RED
  end.

End BarSpec.

(** [filled_length] as [get_health_bar] computes it (lines 36-37). *)
Definition filled_length_of (hp max_hp length : Z) : result Z :=
  match percent_of hp max_hp with
  | Raise e => Raise e
  | Ok percent =>
    match Py.int_mul_float length percent with
    | Raise e => Raise e
    | Ok x => Py.int_of_float x
    end
  end.

(** No escape character in [s]. *)
Fixpoint esc_free (s : string) : bool :=
  match s with
  | EmptyString => true
  | String c s' => negb (Ascii.eqb c "027"%char) && esc_free s'
  end.

(** [filled_length] is the floor of the specification, for every [hp] from
    0 to [max_hp] and every [max_hp] from 1 to [bound]. *)
Definition floor_agrees_upto (length : Z) (bound : nat) : bool :=
  forallb (fun m =>
    forallb (fun h =>
      match filled_length_of (Z.of_nat h) (Z.of_nat (S m)) length with
      | Ok n => n =? BarSpec.filledLength (Z.of_nat h) (Z.of_nat (S m)) length
      | Raise _ => false
      end) (seq 0 (S (S m)))) (seq 0 bound).

(** ** Repeated attacks *)

(** [n] attacks of [self] on [target], one after the other. *)
Fixpoint attacks (n : nat) (self target : ref) : M unit :=
  match n with
  | O => ret tt
  | S k => attack self target ;; attacks k self target
  end.

(** A dead character and a healer at 0 of 50 hit points; the next draw is 12. *)
Definition fallen : World :=
  mkWorld [Character.mk "A" 100 40 15; Character.mk "B" 50 0 10]
          (Some 0%nat) (Some 1%nat) [] [] [12] [].

(** A character created with 0 hit points, and another one. *)
Definition hollow : World :=
  mkWorld [Character.mk "Z" 0 0 5; Character.mk "B" 50 20 10]
          (Some 0%nat) (Some 1%nat) [] [] [] [].

(** ** Key presses at the menu *)




(** ** Choosing Heal at every menu *)

(** The key presses select Heal (index 1) at every menu they reach, and
    may stop in the middle of a menu. *)
Inductive heals_only : list string -> Prop :=
  | heals_only_wait (ks : list string) :
      menu_select 0 ks = None -> heals_only ks
  | heals_only_heal (ks ks' : list string) :
      menu_select 0 ks = Some (1, ks') -> heals_only ks' -> heals_only ks.

(** ** Characters within their limits *)

(** [0 <= hp <= max_hp], with a positive [max_hp] that a float holds
    exactly. *)
Definition within_limits (c : Character.t) : Prop :=
  0 <= Character.hp c <= Character.max_hp c /\ 0 < Character.max_hp c < 2 ^ 53.

(** What [display_status] prints for two characters whose bars are [bp]
    and [be]. *)
Definition status_screen (p e : Character.t) (bp be : string) : list event :=
  [Clear;
   Print "--- バトル状況 ---";
   Print (Character.name p ++ ":");
   Print ("  HP: " ++ bp);
   Print "--------------------";
   Print (Character.name e ++ ":");
   Print ("  HP: " ++ be);
   Print ("--------------------" ++ Py.LF)].

(** Two characters in the middle of a fight. *)
Definition skirmish : World :=
  mkWorld [Character.mk "Knight" 250 100 30; Character.mk "Dragon" 9000 4500 120]
          (Some 0%nat) (Some 1%nat) [] [] [] [Print "hello"].

(** * Properties *)

(** ** Tools *)

Lemma bind_ok {A B} (m : M A) (k : A -> M B) (w w' : World) (a : A) :
  m w = Ok (a, w') -> bind m k w = k a w'.
Proof. unfold bind. intros ->. reflexivity. Qed.

Lemma bind_raise {A B} (m : M A) (k : A -> M B) (w : World) (e : error) :
  m w = Raise e -> bind m k w = Raise e.
Proof. unfold bind. intros ->. reflexivity. Qed.

Lemma load_ok (w : World) (r : ref) (c : Character.t) :
  mem w !! r = Some c -> load r w = Ok (c, w).
Proof. unfold load. intros ->. reflexivity. Qed.

Lemma store_hp_ok (w : World) (r : ref) (c : Character.t) (v : Z) :
  mem w !! r = Some c ->
  store_hp r v w = Ok (tt, set_mem (<[r := Character.with_hp c v]> (mem w)) w).
Proof. unfold store_hp. intros ->. reflexivity. Qed.

Lemma attack_ok (w : World) (self target : ref) (s t : Character.t) :
  mem w !! self = Some s -> mem w !! target = Some t ->
  attack self target w =
  Ok (Character.ap s,
      set_mem (<[target := Character.with_hp t (Z.max 0 (Character.hp t - Character.ap s))]> (mem w)) w).
Proof.
  intros Hs Ht. unfold attack.
  rewrite (bind_ok _ _ _ _ _ (load_ok _ _ _ Hs)).
  rewrite (bind_ok _ _ _ _ _ (load_ok _ _ _ Ht)).
  rewrite (bind_ok _ _ _ _ _ (store_hp_ok _ _ _ _ Ht)).
  reflexivity.
Qed.

Lemma heal_ok (w : World) (self : ref) (s : Character.t) (d : Z) (ds : list Z) :
  mem w !! self = Some s -> draws w = d :: ds ->
  heal self w =
  Ok (d, mkWorld
           (<[self := Character.with_hp s (Z.min (Character.max_hp s) (Character.hp s + d))]> (mem w))
           (player w) (enemy w) (keys w) (lines w) ds (out w)).
Proof.
  intros Hs Hd. unfold heal, bind, randint. rewrite Hd.
  unfold load, store_hp. cbn. rewrite Hs. cbn. rewrite Hs. reflexivity.
Qed.

Lemma is_alive_ok (w : World) (self : ref) (s : Character.t) :
  mem w !! self = Some s -> is_alive self w = Ok (0 <? Character.hp s, w).
Proof.
  intros Hs. unfold is_alive. rewrite (bind_ok _ _ _ _ _ (load_ok _ _ _ Hs)). reflexivity.
Qed.

Lemma lookup_lt_mem (h : list Character.t) (r : ref) (c : Character.t) :
  h !! r = Some c -> (r < length h)%nat.
Proof. intros H. apply lookup_lt_is_Some. eauto. Qed.

(** ** Character.attack *)

(** C1: [attack] returns the attacker's [ap]; the target's [hp] becomes
    [max 0 (hp - ap)], which is [hp] less [min ap hp] and is never negative;
    a target at 0 stays at 0 (for an attack power that is not negative, as
    the data model has it) and the damage returned is still [ap]. *)
Theorem attack_returns_ap_and_clamps (w : World) (self target : ref) (s t : Character.t)
    (Hs : mem w !! self = Some s) (Ht : mem w !! target = Some t) :
  exists w' t',
    attack self target w = Ok (Character.ap s, w') /\
    mem w' !! target = Some t' /\
    Character.hp t' = Z.max 0 (Character.hp t - Character.ap s) /\
    Character.hp t' = Character.hp t - Z.min (Character.ap s) (Character.hp t) /\
    0 <= Character.hp t' /\
    (Character.hp t = 0 -> 0 <= Character.ap s -> Character.hp t' = 0).
Proof.
  eexists _, _. split; [apply (attack_ok _ _ _ _ _ Hs Ht)|].
  split.
  { simpl. apply list_lookup_insert_eq. eapply lookup_lt_mem, Ht. }
  simpl. repeat split; lia.
Qed.

Lemma attack_returns_ap_and_clamps_witness :
  exists w' t',
    attack 0%nat 1%nat duel = Ok (15, w') /\
    mem w' !! 1%nat = Some t' /\
    Character.hp t' = Z.max 0 (0 - 15) /\
    Character.hp t' = 0 - Z.min 15 0 /\
    0 <= Character.hp t' /\
    (0 = 0 -> 0 <= 15 -> Character.hp t' = 0).
Proof.
  exact (attack_returns_ap_and_clamps duel 0%nat 1%nat
           (Character.mk "A" 100 100 15) (Character.mk "B" 80 0 10) eq_refl eq_refl).
Defined.

(** ** Character.heal *)

(** C2: with the draw [d] between 10 and 20, [heal] sets [hp] to
    [min max_hp (hp + d)] and returns [d] itself; with [d = 15], 50/100
    becomes 65 and 95/100 becomes 100; at [hp = max_hp] nothing changes and
    the value returned is not 0. *)
Theorem heal_adds_draw_and_clamps (w : World) (self : ref) (s : Character.t)
    (d : Z) (ds : list Z)
    (Hs : mem w !! self = Some s) (Hd : draws w = d :: ds) (Hr : 10 <= d <= 20) :
  exists w' s',
    heal self w = Ok (d, w') /\
    mem w' !! self = Some s' /\
    Character.hp s' = Z.min (Character.max_hp s) (Character.hp s + d) /\
    Character.max_hp s' = Character.max_hp s /\
    (d = 15 -> Character.hp s = 50 -> Character.max_hp s = 100 -> Character.hp s' = 65) /\
    (d = 15 -> Character.hp s = 95 -> Character.max_hp s = 100 -> Character.hp s' = 100) /\
    (Character.hp s = Character.max_hp s -> s' = s /\ d <> 0).
Proof.
  eexists _, _. split; [apply (heal_ok _ _ _ _ _ Hs Hd)|].
  split.
  { cbn. apply list_lookup_insert_eq. eapply lookup_lt_mem, Hs. }
  cbn. split; [reflexivity|]. split; [reflexivity|].
  split; [lia|]. split; [lia|].
  intros Hfull. split; [|lia].
  destruct s as [n m h a]; cbn in *. subst h.
  unfold Character.with_hp; cbn. f_equal. lia.
Qed.

Lemma heal_adds_draw_and_clamps_witness :
  exists w' s',
    heal 0%nat (wounded 95) = Ok (15, w') /\
    mem w' !! 0%nat = Some s' /\
    Character.hp s' = Z.min 100 (95 + 15) /\
    Character.max_hp s' = 100 /\
    (15 = 15 -> 95 = 50 -> 100 = 100 -> Character.hp s' = 65) /\
    (15 = 15 -> 95 = 95 -> 100 = 100 -> Character.hp s' = 100) /\
    (95 = 100 -> s' = Character.mk "P" 100 95 15 /\ 15 <> 0).
Proof.
  refine (heal_adds_draw_and_clamps (wounded 95) 0%nat (Character.mk "P" 100 95 15)
            15 [] eq_refl eq_refl _).
  lia.
Defined.

(** ** Character.is_alive *)

(** C8: [is_alive] is true exactly when [hp > 0]; after an attack on the
    character it is false exactly when the attack has brought [hp] to 0. *)
Theorem is_alive_iff_hp_positive (w : World) (self attacker : ref) (s a : Character.t)
    (Hs : mem w !! self = Some s) (Ha : mem w !! attacker = Some a) :
  exists b,
    is_alive self w = Ok (b, w) /\
    (b = true <-> Character.hp s > 0) /\
    exists w' s' b',
      attack attacker self w = Ok (Character.ap a, w') /\
      mem w' !! self = Some s' /\
      is_alive self w' = Ok (b', w') /\
      (b' = true <-> Character.hp s' > 0) /\
      (b' = false <-> Character.hp s' = 0) /\
      (b' = false <-> Character.hp s <= Character.ap a).
Proof.
  exists (0 <? Character.hp s). split; [apply is_alive_ok, Hs|].
  split; [rewrite Z.ltb_lt; lia|].
  pose proof (attack_ok _ _ _ _ _ Ha Hs) as Hatk.
  set (s' := Character.with_hp s (Z.max 0 (Character.hp s - Character.ap a))) in *.
  set (w' := set_mem _ w) in *.
  assert (Hs' : mem w' !! self = Some s').
  { subst w'. cbn. apply list_lookup_insert_eq. eapply lookup_lt_mem, Hs. }
  exists w', s', (0 <? Character.hp s').
  split; [exact Hatk|]. split; [exact Hs'|].
  split; [apply is_alive_ok, Hs'|].
  subst s'; cbn.
  rewrite Z.ltb_lt, Z.ltb_ge. repeat split; lia.
Qed.

Lemma is_alive_iff_hp_positive_witness :
  exists b,
    is_alive 1%nat duel = Ok (b, duel) /\
    (b = true <-> 0 > 0) /\
    exists w' s' b',
      attack 0%nat 1%nat duel = Ok (15, w') /\
      mem w' !! 1%nat = Some s' /\
      is_alive 1%nat w' = Ok (b', w') /\
      (b' = true <-> Character.hp s' > 0) /\
      (b' = false <-> Character.hp s' = 0) /\
      (b' = false <-> 0 <= 15).
Proof.
  exact (is_alive_iff_hp_positive duel 1%nat 0%nat
           (Character.mk "B" 80 0 10) (Character.mk "A" 100 100 15) eq_refl eq_refl).
Defined.

(** ** Character.__init__ *)

(** C10: the constructor uses its one [hp] argument for both [max_hp] and
    [hp], so a new character is at full health, and it is alive when that
    value is positive.  The objects that exist already are not touched. *)
Theorem new_Character_full_health (w : World) (name : string) (hp ap : Z) :
  exists r w',
    new_Character name hp ap w = Ok (r, w') /\
    mem w' !! r = Some (Character.mk name hp hp ap) /\
    mem w !! r = None /\
    (forall r' c, mem w !! r' = Some c -> mem w' !! r' = Some c) /\
    is_alive r w' = Ok (0 <? hp, w') /\
    (0 < hp -> is_alive r w' = Ok (true, w')).
Proof.
  eexists _, _. split; [reflexivity|].
  assert (Hnew : (mem w ++ [Character.mk name hp hp ap])%list !! length (mem w)
                 = Some (Character.mk name hp hp ap)).
  { rewrite lookup_app_r by lia. by rewrite Nat.sub_diag. }
  cbn. split; [exact Hnew|].
  split; [apply lookup_ge_None_2; lia|].
  split; [intros r' c Hr'; by apply lookup_app_l_Some|].
  assert (Hal : is_alive (length (mem w))
                  (set_mem (mem w ++ [Character.mk name hp hp ap])%list w)
                = Ok (0 <? hp, set_mem (mem w ++ [Character.mk name hp hp ap])%list w)).
  { exact (is_alive_ok (set_mem (mem w ++ [Character.mk name hp hp ap])%list w) _ _ Hnew). }
  split; [exact Hal|].
  intros Hpos. rewrite Hal. by rewrite (proj2 (Z.ltb_lt 0 hp) Hpos).
Qed.

(** ** Frame and determinism of attack *)

(** C9, as stated, fails: an object that attacks itself is its own target,
    and its [hp] changes. *)
Lemma attack_self_changes_attacker :
  ~ (forall (w w' : World) (self target : ref) (s : Character.t) (d : Z),
       mem w !! self = Some s ->
       attack self target w = Ok (d, w') ->
       mem w' !! self = Some s).
Proof.
  intros H.
  specialize (H (wounded 100) _ 0%nat 0%nat (Character.mk "P" 100 100 15) 15 eq_refl eq_refl).
  discriminate H.
Qed.

(** C9, amended: when the target is another object than the attacker,
    [attack] leaves the attacker as it is, as well as every object but the
    target and everything else in the world; and in any two worlds where the
    attacker and the target are in the same states, it returns the same
    damage and leaves the target in the same state. *)
Theorem attack_frame_and_deterministic (w : World) (self target : ref) (s t : Character.t)
    (Hs : mem w !! self = Some s) (Ht : mem w !! target = Some t)
    (Hne : self <> target) :
  exists w',
    attack self target w = Ok (Character.ap s, w') /\
    mem w' !! self = Some s /\
    (forall r, r <> target -> mem w' !! r = mem w !! r) /\
    (player w', enemy w', keys w', lines w', draws w', out w')
      = (player w, enemy w, keys w, lines w, draws w, out w) /\
    (forall (w2 : World) (self2 target2 : ref),
        mem w2 !! self2 = Some s -> mem w2 !! target2 = Some t ->
        exists w2',
          attack self2 target2 w2 = Ok (Character.ap s, w2') /\
          mem w2' !! target2 = mem w' !! target).
Proof.
  eexists. split; [apply (attack_ok _ _ _ _ _ Hs Ht)|].
  cbn. split; [by rewrite list_lookup_insert_ne|].
  split; [intros r Hr; by rewrite list_lookup_insert_ne|].
  split; [reflexivity|].
  intros w2 self2 target2 Hs2 Ht2.
  eexists. split; [apply (attack_ok _ _ _ _ _ Hs2 Ht2)|].
  cbn. rewrite !list_lookup_insert_eq; [reflexivity| |]; eapply lookup_lt_mem; eauto.
Qed.

Lemma attack_frame_and_deterministic_witness :
  exists w',
    attack 0%nat 1%nat duel = Ok (15, w') /\
    mem w' !! 0%nat = Some (Character.mk "A" 100 100 15) /\
    (forall r, r <> 1%nat -> mem w' !! r = mem duel !! r) /\
    (player w', enemy w', keys w', lines w', draws w', out w')
      = (Some 0%nat, Some 1%nat, [], [], [15], []) /\
    (forall (w2 : World) (self2 target2 : ref),
        mem w2 !! self2 = Some (Character.mk "A" 100 100 15) ->
        mem w2 !! target2 = Some (Character.mk "B" 80 0 10) ->
        exists w2',
          attack self2 target2 w2 = Ok (15, w2') /\
          mem w2' !! target2 = mem w' !! 1%nat).
Proof.
  refine (attack_frame_and_deterministic duel 0%nat 1%nat
            (Character.mk "A" 100 100 15) (Character.mk "B" 80 0 10) eq_refl eq_refl _).
  discriminate.
Defined.

(** ** The invariant on hp *)

Lemma Forall_insert_in_range (h : list Character.t) (r : ref) (c : Character.t) :
  Forall combatant h -> combatant c -> Forall combatant (<[r := c]> h).
Proof. intros Hh Hc. by apply Forall_insert. Qed.

Lemma run_call_keeps_invariant (c : call) (cs : list call) (w : World) :
  Forall combatant (mem w) ->
  script_ok (length (mem w)) (c :: cs) ->
  Forall (fun d => 10 <= d <= 20) (draws w) ->
  (heals (c :: cs) <= length (draws w))%nat ->
  exists w',
    run_call c w = Ok (tt, w') /\
    Forall combatant (mem w') /\
    script_ok (length (mem w')) cs /\
    Forall (fun d => 10 <= d <= 20) (draws w') /\
    (heals cs <= length (draws w'))%nat.
Proof.
  intros Hinv Hok Hdr Hn. destruct c as [name hp ap|self target|self]; cbn in Hok, Hn.
  - destruct Hok as (Hhp & Hap & Hok).
    eexists. split; [reflexivity|]. cbn.
    rewrite length_app, Nat.add_1_r. repeat split; try assumption.
    apply Forall_app. split; [assumption|].
    apply Forall_singleton. unfold combatant, in_range; cbn. lia.
  - destruct Hok as (Hs & Ht & Hok).
    destruct (lookup_lt_is_Some_2 _ _ Hs) as [s Hls].
    destruct (lookup_lt_is_Some_2 _ _ Ht) as [t Hlt].
    eexists. split.
    { unfold run_call. rewrite (bind_ok _ _ _ _ _ (attack_ok _ _ _ _ _ Hls Hlt)). reflexivity. }
    cbn. rewrite length_insert. repeat split; try assumption.
    apply Forall_insert_in_range; [assumption|].
    pose proof (proj1 (Forall_lookup _ _) Hinv _ _ Hls) as [_ Has].
    pose proof (proj1 (Forall_lookup _ _) Hinv _ _ Hlt) as [Hrt Hat].
    unfold combatant, in_range in *; cbn. lia.
  - destruct Hok as (Hs & Hok).
    destruct (lookup_lt_is_Some_2 _ _ Hs) as [s Hls].
    destruct (draws w) as [|d ds] eqn:Hd; [cbn in Hn; lia|].
    eexists. split.
    { unfold run_call. rewrite (bind_ok _ _ _ _ _ (heal_ok _ _ _ _ _ Hls Hd)). reflexivity. }
    cbn. rewrite length_insert.
    apply Forall_cons in Hdr as [Hd1 Hds].
    repeat split; try assumption; [|cbn in Hn; lia].
    apply Forall_insert_in_range; [assumption|].
    pose proof (proj1 (Forall_lookup _ _) Hinv _ _ Hls) as [Hrs Has].
    unfold combatant, in_range in *; cbn. lia.
Qed.

(** C3: from a world where every character has [0 <= hp <= max_hp] (an
    empty one, or one whose characters were created with a positive [hp]),
    any sequence of constructor, [attack] and [heal] calls, on any of the
    characters and with any draws between 10 and 20, runs to its end and
    leaves every character with [0 <= hp <= max_hp]. *)
Theorem hp_stays_in_range (cs : list call) (w : World)
    (Hinv : Forall combatant (mem w))
    (Hok : script_ok (length (mem w)) cs)
    (Hdr : Forall (fun d => 10 <= d <= 20) (draws w))
    (Hn : (heals cs <= length (draws w))%nat) :
  exists w', run_calls cs w = Ok (tt, w') /\ Forall in_range (mem w').
Proof.
  revert w Hinv Hok Hdr Hn. induction cs as [|c cs IH]; intros w Hinv Hok Hdr Hn.
  - exists w. split; [reflexivity|]. eapply Forall_impl; [exact Hinv|]. by intros c [Hc _].
  - destruct (run_call_keeps_invariant c cs w Hinv Hok Hdr Hn)
      as (w1 & Hrun & Hinv1 & Hok1 & Hdr1 & Hn1).
    destruct (IH w1 Hinv1 Hok1 Hdr1 Hn1) as (w' & Hrest & Hfin).
    exists w'. split; [|exact Hfin].
    cbn. by rewrite (bind_ok _ _ _ _ _ Hrun).
Qed.

Lemma hp_stays_in_range_witness :
  exists w',
    run_calls sample_calls (start [] [] [12; 20]) = Ok (tt, w') /\ Forall in_range (mem w').
Proof.
  apply (hp_stays_in_range sample_calls (start [] [] [12; 20])).
  - constructor.
  - cbn. lia.
  - repeat constructor; lia.
  - cbn. lia.
Defined.

(** ** The battle loop *)

(** *** The health bars of the two characters of [main] never fail *)

Lemma get_health_bar_checked (m : Z) :
  forallb (fun i => is_ok (get_health_bar (Z.of_nat i) m None)) (seq 0 (S (Z.to_nat m))) = true ->
  forall hp, 0 <= hp <= m -> exists s, get_health_bar hp m None = Ok s.
Proof.
  intros Hall hp Hhp.
  assert (Hin : In (Z.to_nat hp) (seq 0 (S (Z.to_nat m)))) by (apply in_seq; lia).
  pose proof (proj1 (forallb_forall _ _) Hall _ Hin) as Hok.
  cbv beta in Hok. rewrite Z2Nat.id in Hok by lia.
  destruct (get_health_bar hp m None) as [s|e]; [eauto|discriminate].
Qed.

Lemma hero_bar_ok (hp : Z) : 0 <= hp <= 100 -> exists s, get_health_bar hp 100 None = Ok s.
Proof. apply get_health_bar_checked. vm_compute. reflexivity. Qed.

Lemma slime_bar_ok (hp : Z) : 0 <= hp <= 80 -> exists s, get_health_bar hp 80 None = Ok s.
Proof. apply get_health_bar_checked. vm_compute. reflexivity. Qed.

(** *** Steps on the world of the battle *)

Ltac step H := rewrite (bind_ok _ _ _ _ _ H).

Lemma display_status_battle (php ehp : Z) ks ls ds o :
  0 <= php <= 100 -> 0 <= ehp <= 80 ->
  exists o', display_status 0%nat 1%nat (battle php ehp ks ls ds o)
             = Ok (tt, battle php ehp ks ls ds o').
Proof.
  intros Hp He.
  destruct (hero_bar_ok php Hp) as [sp Hsp].
  destruct (slime_bar_ok ehp He) as [se Hse].
  eexists. unfold display_status, os_system_clear, print, emit, load, lift, bind.
  cbn -[get_health_bar]. rewrite Hsp. cbn -[get_health_bar]. rewrite Hse.
  reflexivity.
Qed.

Lemma menu_select_range (sel : Z) (ks ks' : list string) (i : Z) :
  0 <= sel < 2 -> menu_select sel ks = Some (i, ks') ->
  0 <= i < 2 /\ (length ks' < length ks)%nat.
Proof.
  revert sel. induction ks as [|k ks IH]; intros sel Hsel H; cbn [menu_select] in H; [discriminate|].
  destruct (is_up k).
  { apply IH in H; [cbn; lia|]. apply Z.mod_pos_bound. lia. }
  destruct (is_down k).
  { apply IH in H; [cbn; lia|]. apply Z.mod_pos_bound. lia. }
  destruct (is_enter k).
  { inversion H; subst. cbn. lia. }
  apply IH in H; [cbn; lia|assumption].
Qed.

Lemma global_player_battle php ehp ks ls ds o :
  global_player (battle php ehp ks ls ds o) = Ok (0%nat, battle php ehp ks ls ds o).
Proof. reflexivity. Qed.

Lemma global_enemy_battle php ehp ks ls ds o :
  global_enemy (battle php ehp ks ls ds o) = Ok (1%nat, battle php ehp ks ls ds o).
Proof. reflexivity. Qed.

Lemma print_battle (s : string) php ehp ks ls ds o :
  print s (battle php ehp ks ls ds o) = Ok (tt, battle php ehp ks ls ds (o ++ [Print s])%list).
Proof. reflexivity. Qed.

Lemma print_options_battle (sel : Z) php ehp ks ls ds o :
  exists o', print_options ["Attack"; "Heal"] sel (battle php ehp ks ls ds o)
             = Ok (tt, battle php ehp ks ls ds o').
Proof.
  unfold print_options. cbn [print_options_from].
  destruct (0 =? sel); destruct (0 + 1 =? sel); eexists; reflexivity.
Qed.

Lemma readkey_battle_cons (k : string) php ehp ks ls ds o :
  readkey (battle php ehp (k :: ks) ls ds o) = Ok (k, battle php ehp ks ls ds o).
Proof. reflexivity. Qed.

Lemma readkey_battle_nil php ehp ls ds o :
  readkey (battle php ehp [] ls ds o) = Raise NoKey.
Proof. reflexivity. Qed.

Lemma menu_loop_battle (ks : list string) :
  forall (fuel : nat) (sel php ehp : Z) ls ds o,
    (length ks < fuel)%nat -> 0 <= sel < 2 ->
    0 <= php <= 100 -> 0 <= ehp <= 80 ->
    match menu_select sel ks with
    | Some (i, ks') =>
      exists o', menu_loop fuel ["Attack"; "Heal"] sel (battle php ehp ks ls ds o)
                 = Ok (action_name i, battle php ehp ks' ls ds o')
    | None => menu_loop fuel ["Attack"; "Heal"] sel (battle php ehp ks ls ds o) = Raise NoKey
    end.
Proof.
  induction ks as [|k ks IH]; intros fuel sel php ehp ls ds o Hfuel Hsel Hp He;
    (destruct fuel as [|fuel]; [cbn in Hfuel; lia|]);
    cbn [menu_select menu_loop].
  - step (global_player_battle php ehp [] ls ds o).
    step (global_enemy_battle php ehp [] ls ds o).
    destruct (display_status_battle php ehp [] ls ds o Hp He) as [o1 H1]. step H1.
    step (print_battle "どうする？" php ehp [] ls ds o1).
    destruct (print_options_battle sel php ehp [] ls ds (o1 ++ [Print "どうする？"])%list)
      as [o2 H2]. step H2.
    apply bind_raise. reflexivity.
  - step (global_player_battle php ehp (k :: ks) ls ds o).
    step (global_enemy_battle php ehp (k :: ks) ls ds o).
    destruct (display_status_battle php ehp (k :: ks) ls ds o Hp He) as [o1 H1]. step H1.
    step (print_battle "どうする？" php ehp (k :: ks) ls ds o1).
    destruct (print_options_battle sel php ehp (k :: ks) ls ds (o1 ++ [Print "どうする？"])%list)
      as [o2 H2]. step H2.
    step (readkey_battle_cons k php ehp ks ls ds o2).
    fold (is_up k) (is_down k) (is_enter k).
    cbn in Hfuel.
    destruct (is_up k).
    { unfold py_mod. cbn [length Z.of_nat Pos.of_succ_nat Pos.succ Z.eqb].
      unfold ret at 1, bind at 1.
      apply IH; [lia| |assumption|assumption]. apply Z.mod_pos_bound. lia. }
    destruct (is_down k).
    { unfold py_mod. cbn [length Z.of_nat Pos.of_succ_nat Pos.succ Z.eqb].
      unfold ret at 1, bind at 1.
      apply IH; [lia| |assumption|assumption]. apply Z.mod_pos_bound. lia. }
    destruct (is_enter k).
    { assert (Hsel' : sel = 0 \/ sel = 1) by lia.
      destruct Hsel' as [-> | ->]; eexists; reflexivity. }
    apply IH; [lia|assumption|assumption|assumption].
Qed.

Lemma get_player_action_battle php ehp ks ls ds o :
  0 <= php <= 100 -> 0 <= ehp <= 80 ->
  match menu_select 0 ks with
  | Some (i, ks') =>
    exists o', get_player_action ["Attack"; "Heal"] (battle php ehp ks ls ds o)
               = Ok (action_name i, battle php ehp ks' ls ds o')
  | None => get_player_action ["Attack"; "Heal"] (battle php ehp ks ls ds o) = Raise NoKey
  end.
Proof.
  intros Hp He. unfold get_player_action. cbn [keys battle].
  apply menu_loop_battle; [lia|lia|assumption|assumption].
Qed.

Lemma attack_hero_slime php ehp ks ls ds o :
  attack 0%nat 1%nat (battle php ehp ks ls ds o)
  = Ok (15, battle php (Z.max 0 (ehp - 15)) ks ls ds o).
Proof. reflexivity. Qed.

Lemma attack_slime_hero php ehp ks ls ds o :
  attack 1%nat 0%nat (battle php ehp ks ls ds o)
  = Ok (10, battle (Z.max 0 (php - 10)) ehp ks ls ds o).
Proof. reflexivity. Qed.

Lemma heal_hero (d : Z) php ehp ks ls ds o :
  heal 0%nat (battle php ehp ks ls (d :: ds) o)
  = Ok (d, battle (Z.min 100 (php + d)) ehp ks ls ds o).
Proof. reflexivity. Qed.

Lemma heal_hero_no_draw php ehp ks ls o :
  heal 0%nat (battle php ehp ks ls [] o) = Raise NoDraw.
Proof. reflexivity. Qed.

Lemma input_battle_cons (prompt l : string) php ehp ks ls ds o :
  input prompt (battle php ehp ks (l :: ls) ds o)
  = Ok (l, battle php ehp ks ls ds (o ++ [Prompt prompt])%list).
Proof. reflexivity. Qed.

Lemma input_battle_nil (prompt : string) php ehp ks ds o :
  input prompt (battle php ehp ks [] ds o) = Raise EOFError.
Proof. reflexivity. Qed.

Lemma is_alive_hero php ehp ks ls ds o :
  is_alive 0%nat (battle php ehp ks ls ds o) = Ok (0 <? php, battle php ehp ks ls ds o).
Proof. reflexivity. Qed.

Lemma is_alive_slime php ehp ks ls ds o :
  is_alive 1%nat (battle php ehp ks ls ds o) = Ok (0 <? ehp, battle php ehp ks ls ds o).
Proof. reflexivity. Qed.

Lemma load_hero php ehp ks ls ds o :
  load 0%nat (battle php ehp ks ls ds o) = Ok (hero php, battle php ehp ks ls ds o).
Proof. reflexivity. Qed.

Lemma load_slime php ehp ks ls ds o :
  load 1%nat (battle php ehp ks ls ds o) = Ok (slime ehp, battle php ehp ks ls ds o).
Proof. reflexivity. Qed.

(** The player's half of the round, for the action of index [i]. *)
Lemma player_acts_battle (i php ehp : Z) ks ls ds o :
  0 <= i < 2 ->
  match player_half i php ehp ds with
  | Ok (php1, ehp1, ds1) =>
    exists o', player_acts (action_name i) 0%nat 1%nat (battle php ehp ks ls ds o)
               = Ok (tt, battle php1 ehp1 ks ls ds1 o')
  | Raise e => player_acts (action_name i) 0%nat 1%nat (battle php ehp ks ls ds o) = Raise e
  end.
Proof.
  intros Hi. assert (Hi' : i = 0 \/ i = 1) by lia.
  destruct Hi' as [-> | ->]; unfold player_half, action_name, player_acts;
    cbn [Z.eqb String.eqb Ascii.eqb Bool.eqb].
  - step (attack_hero_slime php ehp ks ls ds o).
    step (load_hero php (Z.max 0 (ehp - 15)) ks ls ds o).
    step (load_slime php (Z.max 0 (ehp - 15)) ks ls ds o).
    eexists. apply print_battle.
  - destruct ds as [|d ds].
    + apply bind_raise, heal_hero_no_draw.
    + step (heal_hero d php ehp ks ls ds o).
      step (load_hero (Z.min 100 (php + d)) ehp ks ls ds o).
      eexists. apply print_battle.
Qed.

Lemma enemy_acts_battle (turn php ehp : Z) ks ls ds o :
  0 <= php <= 100 -> 0 <= ehp <= 80 ->
  match ls with
  | _ :: ls' =>
    exists o', enemy_acts turn 0%nat 1%nat (battle php ehp ks ls ds o)
               = Ok (tt, battle (Z.max 0 (php - 10)) ehp ks ls' ds o')
  | [] => enemy_acts turn 0%nat 1%nat (battle php ehp ks ls ds o) = Raise EOFError
  end.
Proof.
  intros Hp He. unfold enemy_acts.
  destruct (display_status_battle php ehp ks ls ds o Hp He) as [o1 H1].
  destruct ls as [|l ls].
  - step H1. step (print_battle ("--- ターン " ++ Py.str turn ++ " ---") php ehp ks [] ds o1).
    step (attack_slime_hero php ehp ks (@nil string) ds
            (o1 ++ [Print ("--- ターン " ++ Py.str turn ++ " ---")])%list).
    step (load_slime (Z.max 0 (php - 10)) ehp ks (@nil string) ds
            (o1 ++ [Print ("--- ターン " ++ Py.str turn ++ " ---")])%list).
    step (load_hero (Z.max 0 (php - 10)) ehp ks (@nil string) ds
            (o1 ++ [Print ("--- ターン " ++ Py.str turn ++ " ---")])%list).
    erewrite bind_ok by apply print_battle.
    apply bind_raise, input_battle_nil.
  - step H1. step (print_battle ("--- ターン " ++ Py.str turn ++ " ---") php ehp ks (l :: ls) ds o1).
    step (attack_slime_hero php ehp ks (l :: ls) ds
            (o1 ++ [Print ("--- ターン " ++ Py.str turn ++ " ---")])%list).
    step (load_slime (Z.max 0 (php - 10)) ehp ks (l :: ls) ds
            (o1 ++ [Print ("--- ターン " ++ Py.str turn ++ " ---")])%list).
    step (load_hero (Z.max 0 (php - 10)) ehp ks (l :: ls) ds
            (o1 ++ [Print ("--- ターン " ++ Py.str turn ++ " ---")])%list).
    erewrite bind_ok by apply print_battle.
    erewrite bind_ok by apply input_battle_cons.
    eexists. reflexivity.
Qed.

Lemma player_half_range (i php ehp : Z) (ds ds1 : list Z) (php1 ehp1 : Z) :
  0 <= php <= 100 -> 0 <= ehp <= 80 ->
  Forall (fun d => 10 <= d <= 20) ds ->
  player_half i php ehp ds = Ok (php1, ehp1, ds1) ->
  0 <= php1 <= 100 /\ 0 <= ehp1 <= 80 /\ php <= php1 /\
  Forall (fun d => 10 <= d <= 20) ds1.
Proof.
  intros Hp He Hd. unfold player_half. destruct (i =? 0).
  - intros [= <- <- <-]. repeat split; try lia; assumption.
  - destruct ds as [|d ds]; [discriminate|].
    apply Forall_cons in Hd as [Hd1 Hds].
    intros [= <- <- <-]. repeat split; try lia; assumption.
Qed.

(** One iteration of the loop does to the world of the battle what
    [round_model] does to its state, and raises what [round_model] raises. *)
Lemma loop_body_battle (turn php ehp : Z) ks ls ds o :
  0 <= php <= 100 -> 0 <= ehp <= 80 ->
  Forall (fun d => 10 <= d <= 20) ds ->
  match round_model turn php ehp ks ls ds with
  | Ok (c, t, (php', ehp', ks', ls', ds')) =>
    exists o', loop_body turn (battle php ehp ks ls ds o)
               = Ok ((c, t), battle php' ehp' ks' ls' ds' o')
  | Raise e => loop_body turn (battle php ehp ks ls ds o) = Raise e
  end.
Proof.
  intros Hp He Hd. unfold loop_body, round_model.
  step (global_player_battle php ehp ks ls ds o).
  step (global_enemy_battle php ehp ks ls ds o).
  destruct (display_status_battle php ehp ks ls ds o Hp He) as [o1 H1]. step H1.
  erewrite bind_ok by apply print_battle.
  match goal with |- context [battle php ehp ks ls ds ?o2] =>
    pose proof (get_player_action_battle php ehp ks ls ds o2 Hp He) as Hmenu end.
  destruct (menu_select 0 ks) as [[i ks']|] eqn:Hsel; [|by apply bind_raise].
  destruct Hmenu as [o3 Hmenu]. step Hmenu.
  apply menu_select_range in Hsel as [Hi _]; [|lia].
  step (global_player_battle php ehp ks' ls ds o3).
  step (global_enemy_battle php ehp ks' ls ds o3).
  pose proof (player_acts_battle i php ehp ks' ls ds o3 Hi) as Hact.
  destruct (player_half i php ehp ds) as [[[php1 ehp1] ds1]|e] eqn:Hhalf;
    [|by apply bind_raise].
  destruct Hact as [o4 Hact]. step Hact.
  destruct (player_half_range _ _ _ _ _ _ _ Hp He Hd Hhalf) as (Hp1 & He1 & _ & Hd1).
  destruct ls as [|l1 ls1]; [by apply bind_raise, input_battle_nil|].
  erewrite bind_ok by apply input_battle_cons.
  erewrite bind_ok by apply global_enemy_battle.
  erewrite bind_ok by apply is_alive_slime.
  destruct (0 <? ehp1); cbn [negb].
  - erewrite bind_ok by apply global_player_battle.
    erewrite bind_ok by apply global_enemy_battle.
    match goal with |- context [battle php1 ehp1 ks' ls1 ds1 ?o5] =>
      pose proof (enemy_acts_battle turn php1 ehp1 ks' ls1 ds1 o5 Hp1 He1) as Hen end.
    destruct ls1 as [|l2 ls2]; [by apply bind_raise|].
    destruct Hen as [o6 Hen]. step Hen. eexists. reflexivity.
  - eexists. reflexivity.
Qed.

Lemma round_model_range (turn php ehp : Z) ks ls ds c t php' ehp' ks' ls' ds' :
  0 <= php <= 100 -> 0 <= ehp <= 80 ->
  Forall (fun d => 10 <= d <= 20) ds ->
  round_model turn php ehp ks ls ds = Ok (c, t, (php', ehp', ks', ls', ds')) ->
  0 <= php' <= 100 /\ 0 <= ehp' <= 80 /\ Forall (fun d => 10 <= d <= 20) ds' /\
  (length ks' < length ks)%nat.
Proof.
  intros Hp He Hd. unfold round_model.
  destruct (menu_select 0 ks) as [[i ks1]|] eqn:Hsel; [|discriminate].
  apply menu_select_range in Hsel as [_ Hlen]; [|lia].
  destruct (player_half i php ehp ds) as [[[php1 ehp1] ds1]|e] eqn:Hhalf; [|discriminate].
  destruct (player_half_range _ _ _ _ _ _ _ Hp He Hd Hhalf) as (Hp1 & He1 & _ & Hd1).
  destruct ls as [|l1 ls1]; [discriminate|].
  destruct (0 <? ehp1); cbn [negb].
  - destruct ls1 as [|l2 ls2]; [discriminate|].
    intros [= <- <- <- <- <- <- <-]. repeat split; try lia; assumption.
  - intros [= <- <- <- <- <- <- <-]. repeat split; try lia; assumption.
Qed.

Lemma loop_condition_battle php ehp ks ls ds o :
  loop_condition (battle php ehp ks ls ds o)
  = Ok ((0 <? php) && (0 <? ehp), battle php ehp ks ls ds o).
Proof.
  unfold loop_condition.
  erewrite bind_ok by apply global_player_battle.
  erewrite bind_ok by apply is_alive_hero.
  destruct (0 <? php); [|reflexivity].
  erewrite bind_ok by apply global_enemy_battle.
  apply is_alive_slime.
Qed.

(** The loop does to the world of the battle what [battle_model] does to
    its state. *)
Lemma battle_loop_battle (fuel : nat) :
  forall (turn php ehp : Z) ks ls ds o,
    0 <= php <= 100 -> 0 <= ehp <= 80 ->
    Forall (fun d => 10 <= d <= 20) ds ->
    match battle_model fuel turn php ehp ks ls ds with
    | Ok (php', ehp', ks', ls', ds') =>
      exists o', battle_loop fuel turn (battle php ehp ks ls ds o)
                 = Ok (tt, battle php' ehp' ks' ls' ds' o')
    | Raise e => battle_loop fuel turn (battle php ehp ks ls ds o) = Raise e
    end.
Proof.
  induction fuel as [|fuel IH]; intros turn php ehp ks ls ds o Hp He Hd; [reflexivity|].
  cbn [battle_model battle_loop].
  step (loop_condition_battle php ehp ks ls ds o).
  destruct ((0 <? php) && (0 <? ehp)); [|eexists; reflexivity].
  pose proof (loop_body_battle turn php ehp ks ls ds o Hp He Hd) as Hbody.
  destruct (round_model turn php ehp ks ls ds)
    as [[[c t] [[[[php' ehp'] ks'] ls'] ds']]|e] eqn:Hround; [|by apply bind_raise].
  destruct Hbody as [o1 Hbody]. step Hbody.
  destruct c; [eexists; reflexivity|].
  destruct (round_model_range _ _ _ _ _ _ _ _ _ _ _ _ _ Hp He Hd Hround) as (Hp' & He' & Hd' & _).
  apply IH; assumption.
Qed.

(** The loop of [main] never uses up its iterations. *)
Lemma battle_model_fuel (fuel : nat) :
  forall (turn php ehp : Z) ks ls ds,
    (length ks < fuel)%nat ->
    0 <= php <= 100 -> 0 <= ehp <= 80 ->
    Forall (fun d => 10 <= d <= 20) ds ->
    battle_model fuel turn php ehp ks ls ds <> Raise OutOfFuel.
Proof.
  induction fuel as [|fuel IH]; intros turn php ehp ks ls ds Hlen Hp He Hd; [lia|].
  cbn [battle_model].
  destruct ((0 <? php) && (0 <? ehp)); [|discriminate].
  destruct (round_model turn php ehp ks ls ds)
    as [[[c t] [[[[php' ehp'] ks'] ls'] ds']]|e] eqn:Hround.
  - destruct c; [discriminate|].
    destruct (round_model_range _ _ _ _ _ _ _ _ _ _ _ _ _ Hp He Hd Hround) as (Hp' & He' & Hd' & Hl).
    apply IH; try assumption. lia.
  - intros [= ->]. revert Hround. unfold round_model.
    destruct (menu_select 0 ks) as [[i ks1]|]; [|discriminate].
    unfold player_half. destruct (i =? 0).
    + destruct ls as [|? [|? ?]]; try discriminate; destruct (negb _); discriminate.
    + destruct ds as [|d ds']; [discriminate|].
      destruct ls as [|? [|? ?]]; try discriminate; destruct (negb _); discriminate.
Qed.

Lemma finish_battle php ehp ks ls ds o :
  0 <= php <= 100 -> 0 <= ehp <= 80 ->
  exists o', finish (battle php ehp ks ls ds o)
             = Ok (if 0 <? php then PlayerWon else EnemyWon, battle php ehp ks ls ds o').
Proof.
  intros Hp He. unfold finish.
  erewrite bind_ok by apply global_player_battle.
  erewrite bind_ok by apply global_enemy_battle.
  destruct (display_status_battle php ehp ks ls ds o Hp He) as [o1 H1]. step H1.
  erewrite bind_ok by apply global_player_battle.
  erewrite bind_ok by apply is_alive_hero.
  destruct (0 <? php).
  - erewrite bind_ok by apply load_slime.
    erewrite bind_ok by apply print_battle. eexists. reflexivity.
  - erewrite bind_ok by apply load_hero.
    erewrite bind_ok by apply print_battle. eexists. reflexivity.
Qed.

Lemma setup_start ks ls ds :
  setup (start ks ls ds) = Ok (tt, battle 100 80 ks ls ds []).
Proof. reflexivity. Qed.

Lemma battle_model_range (fuel : nat) :
  forall (turn php ehp : Z) ks ls ds php' ehp' ks' ls' ds',
    0 <= php <= 100 -> 0 <= ehp <= 80 ->
    Forall (fun d => 10 <= d <= 20) ds ->
    battle_model fuel turn php ehp ks ls ds = Ok (php', ehp', ks', ls', ds') ->
    0 <= php' <= 100 /\ 0 <= ehp' <= 80.
Proof.
  induction fuel as [|fuel IH]; intros turn php ehp ks ls ds php' ehp' ks' ls' ds' Hp He Hd;
    [discriminate|].
  cbn [battle_model].
  destruct ((0 <? php) && (0 <? ehp)); [|intros [= <- <- <- <- <-]; split; assumption].
  destruct (round_model turn php ehp ks ls ds)
    as [[[c t] [[[[php1 ehp1] ks1] ls1] ds1]]|e] eqn:Hround; [|discriminate].
  destruct (round_model_range _ _ _ _ _ _ _ _ _ _ _ _ _ Hp He Hd Hround) as (Hp1 & He1 & Hd1 & _).
  destruct c.
  - intros [= <- <- <- <- <-]. split; assumption.
  - apply IH; assumption.
Qed.

(** [main] ends as [battle_model] does: with the ending that the final
    hit points decide, or with the exception raised when an input runs
    out; its loops never use up their iterations. *)
Lemma main_runs (ks ls : list string) (ds : list Z) :
  Forall (fun d => 10 <= d <= 20) ds ->
  match battle_model (S (length ks)) 1 100 80 ks ls ds with
  | Ok (php, ehp, ks', ls', ds') =>
    exists o', main (start ks ls ds)
               = Ok (if 0 <? php then PlayerWon else EnemyWon, battle php ehp ks' ls' ds' o')
  | Raise e => main (start ks ls ds) = Raise e /\ e <> OutOfFuel
  end.
Proof.
  intros Hd. unfold main. step (setup_start ks ls ds).
  pose proof (battle_loop_battle (S (length ks)) 1 100 80 ks ls ds []
                ltac:(lia) ltac:(lia) Hd) as Hloop.
  pose proof (battle_model_fuel (S (length ks)) 1 100 80 ks ls ds
                ltac:(lia) ltac:(lia) ltac:(lia) Hd) as Hfuel.
  pose proof (battle_model_range (S (length ks)) 1 100 80 ks ls ds) as Hrange.
  destruct (battle_model (S (length ks)) 1 100 80 ks ls ds)
    as [[[[[php ehp] ks'] ls'] ds']|e].
  - destruct Hloop as [o1 Hloop].
    destruct (Hrange _ _ _ _ _ ltac:(lia) ltac:(lia) Hd eq_refl) as [Hp He].
    unfold bind at 1. cbn [keys battle]. rewrite Hloop.
    apply finish_battle; assumption.
  - split; [|congruence].
    unfold bind at 1. cbn [keys battle]. rewrite Hloop. reflexivity.
Qed.

(** *** The scenario of A (100, 15) against B (80, 10) *)

(** C5, as stated, fails: after round 1 the enemy has 65 hit points
    (80 - 15), not 70. *)
Lemma round_1_enemy_hp_is_not_70 :
  ~ (exists r w b,
       (setup ;; loop_body 1) (start [Py.CR] [""; ""] []) = Ok (r, w) /\
       mem w !! 1%nat = Some b /\ Character.hp b = 70).
Proof.
  intros (r & w & b & Hrun & Hb & Hhp).
  assert (Hmem : exists r0 w0, (setup ;; loop_body 1) (start [Py.CR] [""; ""] []) = Ok (r0, w0)
                               /\ mem w0 = [hero 90; slime 65]).
  { vm_compute. eexists _, _. split; reflexivity. }
  destruct Hmem as (r0 & w0 & Hrun0 & Hmem).
  rewrite Hrun0 in Hrun. injection Hrun as <- <-.
  rewrite Hmem in Hb. injection Hb as <-. discriminate Hhp.
Qed.

(** C5, amended: when Enter is pressed at each menu (so the player always
    attacks), whatever the lines typed at the eleven prompts and whatever
    is left of the inputs, after round 1 the enemy has 65 hit points and
    the player 90, and [main] ends with [PlayerWon], the enemy at 0 and the
    player at 50. *)
Theorem always_attack_player_wins (ks ls : list string) (ds : list Z)
    (Hl : (11 <= length ls)%nat)
    (Hd : Forall (fun d => 10 <= d <= 20) ds) :
  (exists o1,
      (setup ;; loop_body 1) (start (repeat Py.CR 6 ++ ks) ls ds)
      = Ok ((Continue, 2), battle 90 65 (repeat Py.CR 5 ++ ks) (drop 2 ls) ds o1)) /\
  (exists o',
      main (start (repeat Py.CR 6 ++ ks) ls ds)
      = Ok (PlayerWon, battle 50 0 ks (drop 11 ls) ds o')).
Proof.
  destruct ls as [|l1 [|l2 [|l3 [|l4 [|l5 [|l6 [|l7 [|l8 [|l9 [|l10 [|l11 ls]]]]]]]]]]];
    try (cbn in Hl; lia). clear Hl.
  set (typed := l1 :: l2 :: l3 :: l4 :: l5 :: l6 :: l7 :: l8 :: l9 :: l10 :: l11 :: ls).
  split.
  - step (setup_start (repeat Py.CR 6 ++ ks) typed ds).
    match goal with |- context [loop_body 1 ?w] =>
      pose proof (loop_body_battle 1 100 80 (repeat Py.CR 6 ++ ks)
                    typed ds []
                    ltac:(lia) ltac:(lia) Hd) as H end.
    exact H.
  - unfold main.
    step (setup_start (repeat Py.CR 6 ++ ks) typed ds).
    pose proof (battle_loop_battle (S (length (repeat Py.CR 6 ++ ks))) 1 100 80
                  (repeat Py.CR 6 ++ ks)
                  typed ds []
                  ltac:(lia) ltac:(lia) Hd) as [o1 H].
    unfold bind at 1. cbn [keys battle]. rewrite H.
    destruct (finish_battle 50 0 ks ls ds o1 ltac:(lia) ltac:(lia)) as [o2 H2].
    exists o2. exact H2.
Qed.

Lemma always_attack_player_wins_witness :
  (exists o1,
      (setup ;; loop_body 1) (start (repeat Py.CR 6 ++ []) (repeat "" 11) [])
      = Ok ((Continue, 2), battle 90 65 (repeat Py.CR 5 ++ []) (drop 2 (repeat "" 11)) [] o1)) /\
  (exists o',
      main (start (repeat Py.CR 6 ++ []) (repeat "" 11) [])
      = Ok (PlayerWon, battle 50 0 [] (drop 11 (repeat "" 11)) [] o')).
Proof.
  apply (always_attack_player_wins [] (repeat "" 11) []).
  - cbn. lia.
  - constructor.
Defined.

(** *** A round of the loop against the rules of the specification *)






(** ** get_health_bar *)

(** *** Stripping the colour codes *)

Lemma append_assoc (a b c : string) : (a ++ b) ++ c = a ++ (b ++ c).
Proof. induction a as [|x a IH]; cbn; [reflexivity|by rewrite IH]. Qed.

Lemma append_nil_r (a : string) : a ++ "" = a.
Proof. induction a as [|x a IH]; cbn; [reflexivity|by rewrite IH]. Qed.

Lemma strip_from_esc_free (a b : string) :
  esc_free a = true -> strip_from 0 (a ++ b) = a ++ strip_from 0 b.
Proof.
  induction a as [|c a IH]; intros Ha; [reflexivity|].
  cbn [esc_free] in Ha. apply andb_true_iff in Ha as [Hc Ha].
  cbn [String.append strip_from].
  assert (Hno : ansi_match (String c (a ++ b)) = None).
  { unfold ansi_match, ansi_shapes. cbn [map find starts_with in_class].
    apply negb_true_iff in Hc. rewrite Hc. reflexivity. }
  rewrite Hno. f_equal. apply IH, Ha.
Qed.

Lemma esc_free_app (a b : string) :
  esc_free a = true -> esc_free b = true -> esc_free (a ++ b) = true.
Proof.
  induction a as [|c a IH]; intros Ha Hb; [exact Hb|].
  cbn [esc_free String.append] in *. apply andb_true_iff in Ha as [Hc Ha].
  rewrite Hc. cbn. by apply IH.
Qed.

Lemma esc_free_str_mul (g : string) (n : Z) :
  esc_free g = true -> esc_free (Py.str_mul g n) = true.
Proof.
  intros Hg. unfold Py.str_mul. induction (Z.to_nat n) as [|k IH]; [reflexivity|].
  cbn [repeat String.concat]. destruct (repeat g k) as [|g' l] eqn:Hrep.
  - exact Hg.
  - cbn [String.concat] in IH |- *. apply esc_free_app; [exact Hg|exact IH].
Qed.

Lemma esc_free_uint (d : Decimal.uint) : esc_free (NilEmpty.string_of_uint d) = true.
Proof. induction d; cbn; assumption || reflexivity. Qed.

Lemma esc_free_str (z : Z) : esc_free (Py.str z) = true.
Proof.
  unfold Py.str, NilEmpty.string_of_int. destruct (Z.to_int z) as [d|d].
  - apply esc_free_uint.
  - cbn. apply esc_free_uint.
Qed.

Lemma bar_color_cases (percent : Py.float) :
  bar_color_of percent = Fore.GREEN \/ bar_color_of percent = Fore.YELLOW \/
  bar_color_of percent = Fore.RED.
Proof.
  unfold bar_color_of.
  destruct (Py.float_lt percent Py.float_0_25); [tauto|].
  destruct (Py.float_lt percent Py.float_0_5); tauto.
Qed.

Lemma strip_bar (color : string) (filled empty label : string) :
  color = Fore.GREEN \/ color = Fore.YELLOW \/ color = Fore.RED ->
  esc_free filled = true -> esc_free empty = true -> esc_free label = true ->
  strip_ansi ("[" ++ (color ++ filled ++ Style.RESET_ALL ++ empty) ++ label)
  = "[" ++ filled ++ empty ++ label.
Proof.
  intros Hc Hf He Hl. unfold strip_ansi.
  rewrite (strip_from_esc_free "[" _ eq_refl). f_equal.
  assert (Hcol : forall rest, strip_from 0 (color ++ rest) = strip_from 0 rest).
  { intros rest. destruct Hc as [-> | [-> | ->]]; reflexivity. }
  rewrite !append_assoc. rewrite Hcol.
  rewrite (strip_from_esc_free filled _ Hf). f_equal.
  change (strip_from 0 (Style.RESET_ALL ++ empty ++ label))
    with (strip_from 0 (empty ++ label)).
  rewrite (strip_from_esc_free empty _ He). f_equal.
  rewrite <- (append_nil_r label) at 1.
  rewrite (strip_from_esc_free label "" Hl). apply append_nil_r.
Qed.

(** [get_health_bar] in terms of the ratio and of [filled_length_of]. *)
Lemma get_health_bar_eq (hp max_hp : Z) (length : option Z) :
  get_health_bar hp max_hp length =
  match percent_of hp max_hp, filled_length_of hp max_hp (default 20 length) with
  | Ok percent, Ok n =>
    Ok ("[" ++ (bar_color_of percent ++ Py.str_mul FULL_BLOCK n ++ Style.RESET_ALL
                ++ Py.str_mul LIGHT_HORIZONTAL (default 20 length - n))
        ++ "] " ++ Py.str hp ++ "/" ++ Py.str max_hp)
  | Raise e, _ => Raise e
  | Ok _, Raise e => Raise e
  end.
Proof.
  unfold get_health_bar, filled_length_of.
  destruct (percent_of hp max_hp) as [percent|e]; [|reflexivity].
  destruct (Py.int_mul_float (default 20 length) percent) as [x|e]; [|reflexivity].
  destruct (Py.int_of_float x) as [n|e]; reflexivity.
Qed.

Lemma floor_agrees_upto_spec (length : Z) (bound : nat) :
  floor_agrees_upto length bound = true ->
  forall hp max_hp, 0 < max_hp <= Z.of_nat bound -> 0 <= hp <= max_hp ->
    filled_length_of hp max_hp length = Ok (BarSpec.filledLength hp max_hp length).
Proof.
  intros Hall hp max_hp Hm Hh. unfold floor_agrees_upto in Hall.
  assert (Hin : In (Z.to_nat (max_hp - 1)) (seq 0 bound)) by (apply in_seq; lia).
  pose proof (proj1 (forallb_forall _ _) Hall _ Hin) as Hrow. cbv beta in Hrow.
  assert (Hin2 : In (Z.to_nat hp) (seq 0 (S (S (Z.to_nat (max_hp - 1))))))
    by (apply in_seq; lia).
  pose proof (proj1 (forallb_forall _ _) Hrow _ Hin2) as Hok. cbv beta in Hok.
  replace (Z.of_nat (S (Z.to_nat (max_hp - 1)))) with max_hp in Hok by lia.
  rewrite Z2Nat.id in Hok by lia.
  destruct (filled_length_of hp max_hp length) as [n|e]; [|discriminate].
  apply Z.eqb_eq in Hok. by rewrite Hok.
Qed.

(** Whatever [get_health_bar] returns is the bar in its colour between
    brackets and the label; without the colour codes, the glyphs and the
    label are left. *)
Lemma get_health_bar_stripped (hp max_hp : Z) (len : option Z) (s : string) :
  get_health_bar hp max_hp len = Ok s ->
  exists percent n,
    percent_of hp max_hp = Ok percent /\
    filled_length_of hp max_hp (default 20 len) = Ok n /\
    s = "[" ++ (bar_color_of percent ++ Py.str_mul FULL_BLOCK n ++ Style.RESET_ALL
                ++ Py.str_mul LIGHT_HORIZONTAL (default 20 len - n))
        ++ "] " ++ Py.str hp ++ "/" ++ Py.str max_hp /\
    strip_ansi s =
    "[" ++ Py.str_mul FULL_BLOCK n ++ Py.str_mul LIGHT_HORIZONTAL (default 20 len - n)
    ++ "] " ++ Py.str hp ++ "/" ++ Py.str max_hp.
Proof.
  intros Hs. rewrite get_health_bar_eq in Hs.
  destruct (percent_of hp max_hp) as [percent|e]; [|discriminate].
  destruct (filled_length_of hp max_hp (default 20 len)) as [n|e]; [|discriminate].
  assert (Hs' : s = "[" ++ (bar_color_of percent ++ Py.str_mul FULL_BLOCK n ++ Style.RESET_ALL
                ++ Py.str_mul LIGHT_HORIZONTAL (default 20 len - n))
        ++ "] " ++ Py.str hp ++ "/" ++ Py.str max_hp) by congruence.
  exists percent, n. split; [reflexivity|]. split; [reflexivity|]. split; [exact Hs'|].
  rewrite Hs'.
  apply (strip_bar (bar_color_of percent) (Py.str_mul FULL_BLOCK n)
           (Py.str_mul LIGHT_HORIZONTAL (default 20 len - n))
           ("] " ++ Py.str hp ++ "/" ++ Py.str max_hp)).
  - apply bar_color_cases.
  - by apply esc_free_str_mul.
  - by apply esc_free_str_mul.
  - apply (esc_free_app "] "); [reflexivity|].
    apply esc_free_app; [apply esc_free_str|].
    apply (esc_free_app "/"); [reflexivity|apply esc_free_str].
Qed.

(** C6, as stated, fails twice.  [filled_length] is not clamped: for
    (200, 100, 10) it is 20 and the bar has 20 filled glyphs, where the
    specification has 10.  And it is computed on floats: for (29, 100, 100)
    the quotient 0.29 times 100 is just below 29 and [int] makes it 28,
    where the floor of 100 * 29 / 100 is 29. *)
Lemma health_bar_differs_from_spec :
  (exists s, get_health_bar 200 100 (Some 10) = Ok s /\
             filled_length_of 200 100 10 = Ok 20 /\
             BarSpec.filledLength 200 100 10 = 10 /\
             strip_ansi s <> BarSpec.formatHealthBar 200 100 10) /\
  (exists s, get_health_bar 29 100 (Some 100) = Ok s /\
             filled_length_of 29 100 100 = Ok 28 /\
             BarSpec.filledLength 29 100 100 = 29 /\
             strip_ansi s <> BarSpec.formatHealthBar 29 100 100).
Proof.
  split; eexists; (split; [vm_compute; reflexivity|]);
    (split; [vm_compute; reflexivity|]); (split; [vm_compute; reflexivity|]);
    vm_compute; discriminate.
Qed.

(** C6, amended: when [length] is left out it is 20.  Whenever
    [get_health_bar] returns, [filled_length] is [int(length * (hp / max_hp))]
    as computed on floats, and the result without its colour codes is an
    opening bracket, [filled_length] filled glyphs (none when it is
    negative), [length - filled_length] empty glyphs (none when that is
    negative), a closing bracket, a space and the label [hp/max_hp].  For
    [0 <= hp <= max_hp <= 200] and a length of 10 or 20 it returns, and
    [filled_length] is the floor of [length * hp / max_hp], between 0 and
    [length].  The three examples of the specification hold. *)
Theorem get_health_bar_shape (hp max_hp : Z) (length : option Z) :
  get_health_bar hp max_hp None = get_health_bar hp max_hp (Some 20) /\
  (forall s, get_health_bar hp max_hp length = Ok s ->
     exists n,
       filled_length_of hp max_hp (default 20 length) = Ok n /\
       strip_ansi s =
       "[" ++ Py.str_mul FULL_BLOCK n ++ Py.str_mul LIGHT_HORIZONTAL (default 20 length - n)
       ++ "] " ++ Py.str hp ++ "/" ++ Py.str max_hp) /\
  (0 < max_hp <= 200 -> 0 <= hp <= max_hp ->
   length = None \/ length = Some 10 \/ length = Some 20 ->
   exists s,
     get_health_bar hp max_hp length = Ok s /\
     filled_length_of hp max_hp (default 20 length)
     = Ok (BarSpec.filledLength hp max_hp (default 20 length)) /\
     BarSpec.filledLength hp max_hp (default 20 length) = default 20 length * hp / max_hp /\
     0 <= BarSpec.filledLength hp max_hp (default 20 length) <= default 20 length /\
     strip_ansi s = BarSpec.formatHealthBar hp max_hp (default 20 length)) /\
  (exists s, get_health_bar 100 100 (Some 10) = Ok s /\
             strip_ansi s = "[" ++ Py.str_mul FULL_BLOCK 10 ++ "] 100/100") /\
  (exists s, get_health_bar 50 100 (Some 10) = Ok s /\
             strip_ansi s = "[" ++ Py.str_mul FULL_BLOCK 5 ++ Py.str_mul LIGHT_HORIZONTAL 5
                            ++ "] 50/100") /\
  (exists s, get_health_bar 0 100 (Some 10) = Ok s /\
             strip_ansi s = "[" ++ Py.str_mul LIGHT_HORIZONTAL 10 ++ "] 0/100").
Proof.
  assert (Hshape : forall len s, get_health_bar hp max_hp len = Ok s ->
     exists n,
       filled_length_of hp max_hp (default 20 len) = Ok n /\
       strip_ansi s =
       "[" ++ Py.str_mul FULL_BLOCK n ++ Py.str_mul LIGHT_HORIZONTAL (default 20 len - n)
       ++ "] " ++ Py.str hp ++ "/" ++ Py.str max_hp).
  { intros len s Hs.
    destruct (get_health_bar_stripped hp max_hp len s Hs) as (percent & n & _ & Hn & _ & Hst).
    exists n. split; assumption. }
  split; [reflexivity|]. split; [apply Hshape|].
  split.
  { intros Hm Hh Hlen.
    assert (Hfloor : filled_length_of hp max_hp (default 20 length)
                     = Ok (BarSpec.filledLength hp max_hp (default 20 length))).
    { destruct Hlen as [-> | [-> | ->]]; cbn [default].
      - apply (floor_agrees_upto_spec 20 200); [vm_compute; reflexivity|lia|lia].
      - apply (floor_agrees_upto_spec 10 200); [vm_compute; reflexivity|lia|lia].
      - apply (floor_agrees_upto_spec 20 200); [vm_compute; reflexivity|lia|lia]. }
    assert (Hlen0 : 0 <= default 20 length) by (destruct Hlen as [-> | [-> | ->]]; cbn; lia).
    assert (Hq : 0 <= default 20 length * hp / max_hp <= default 20 length).
    { split; [apply Z.div_pos; nia|].
      apply Z.div_le_upper_bound; nia. }
    pose proof (get_health_bar_eq hp max_hp length) as Heq.
    rewrite Hfloor in Heq.
    destruct (percent_of hp max_hp) as [percent|e] eqn:Hper.
    2:{ unfold filled_length_of in Hfloor. rewrite Hper in Hfloor. discriminate. }
    eexists. split; [exact Heq|]. split; [exact Hfloor|].
    split; [unfold BarSpec.filledLength; lia|].
    split; [unfold BarSpec.filledLength; lia|].
    destruct (Hshape length _ Heq) as (n & Hn & Hstrip).
    rewrite Hfloor in Hn. injection Hn as <-. exact Hstrip. }
  repeat split; eexists; (split; [vm_compute; reflexivity|]); vm_compute; reflexivity.
Qed.

(** *** Binary64 division of small integers *)

Lemma digits2_pos_size (p : positive) : digits2_pos p = Pos.size p.
Proof. induction p; cbn; congruence. Qed.

Lemma Zdigits2_log2 (z : Z) : 0 < z -> Zdigits2 z = Z.log2 z + 1.
Proof.
  destruct z as [|p|p]; try lia. intros _. cbn [Zdigits2].
  rewrite digits2_pos_size. destruct p; cbn; lia.
Qed.

Lemma Zdigits2_bounds (z : Z) :
  0 < z -> 2 ^ (Zdigits2 z - 1) <= z < 2 ^ Zdigits2 z.
Proof.
  intros Hz. rewrite Zdigits2_log2 by assumption.
  replace (Z.log2 z + 1 - 1) with (Z.log2 z) by lia.
  rewrite Z.add_1_r. apply Z.log2_spec, Hz.
Qed.

Lemma Zdigits2_unique (z d : Z) : 2 ^ (d - 1) <= z < 2 ^ d -> 0 < z -> Zdigits2 z = d.
Proof.
  intros Hd Hz. rewrite Zdigits2_log2 by assumption.
  assert (0 < d).
  { destruct (Z.lt_trichotomy d 0) as [?|[->|?]]; [|cbn in Hd; lia|lia].
    rewrite (Z.pow_neg_r 2 d) in Hd by lia. lia. }
  rewrite (Z.log2_unique z (d - 1)); [lia|lia|].
  replace (Z.succ (d - 1)) with d by lia. exact Hd.
Qed.

Lemma loc_of_shr_record_of_loc (m : Z) (l : location) :
  loc_of_shr_record (shr_record_of_loc m l) = l.
Proof. destruct l as [|[]]; reflexivity. Qed.

Lemma shr_m_record_of_loc (m : Z) (l : location) : shr_m (shr_record_of_loc m l) = m.
Proof. destruct l as [|[]]; reflexivity. Qed.

Lemma shr_record_of_loc_of_record (r : shr_record) :
  shr_record_of_loc (shr_m r) (loc_of_shr_record r) = r.
Proof. destruct r as [m [] []]; reflexivity. Qed.

Lemma round_nearest_even_cases (m : Z) (l : location) :
  round_nearest_even m l = m \/ round_nearest_even m l = m + 1.
Proof. destruct l as [|[]]; cbn; try tauto. destruct (Z.even m); tauto. Qed.

(** A mantissa of 53 digits with an exact location is kept as it is. *)
Lemma shr_fexp_53 (m e : Z) (l : location) :
  2 ^ 52 <= m < 2 ^ 53 -> -1074 <= e ->
  shr_fexp Py.prec Py.emax m e l = (shr_record_of_loc m l, e).
Proof.
  intros Hm He. unfold shr_fexp.
  rewrite (Zdigits2_unique m 53) by lia.
  replace (fexp Py.prec Py.emax (53 + e) - e) with 0
    by (unfold fexp, emin, Py.prec, Py.emax; lia).
  reflexivity.
Qed.

(** A mantissa of 54 digits is shifted by one bit. *)
Lemma shr_fexp_54 (m e : Z) (l : location) :
  2 ^ 53 <= m < 2 ^ 54 -> -1074 <= e ->
  shr_fexp Py.prec Py.emax m e l = (shr_1 (shr_record_of_loc m l), e + 1).
Proof.
  intros Hm He. unfold shr_fexp.
  rewrite (Zdigits2_unique m 54) by lia.
  replace (fexp Py.prec Py.emax (54 + e) - e) with 1
    by (unfold fexp, emin, Py.prec, Py.emax; lia).
  reflexivity.
Qed.

Lemma shr_1_m (m : Z) (r s : bool) :
  0 <= m -> shr_m (shr_1 (Build_shr_record m r s)) = m / 2.
Proof.
  intros Hm. rewrite <- Z.div2_div.
  destruct m as [|[p|p|]|p]; try reflexivity; lia.
Qed.

Lemma shr_1_round_up (m : Z) (l : location) :
  0 <= m ->
  let r := shr_1 (shr_record_of_loc m l) in
  round_nearest_even (shr_m r) (loc_of_shr_record r) = shr_m r + 1 -> Z.odd m = true.
Proof.
  intros Hm r Hup. subst r.
  destruct m as [|[p|p|]|p]; try lia; try reflexivity;
    destruct l as [|[]]; cbn in Hup; try lia;
    try (destruct (Z.even _) in Hup; lia).
Qed.

(** Rounding a mantissa of 53 digits: one more unit at most, and a carry
    into the next binade when that gives [2^53]. *)
Lemma binary_round_aux_53 (s : bool) (m e : Z) (l : location) :
  2 ^ 52 <= m < 2 ^ 53 -> -1074 <= e <= 970 ->
  exists (mF : positive) (eF : Z),
    binary_round_aux Py.prec Py.emax s m e l = S754_finite s mF eF /\
    2 ^ 52 <= Zpos mF < 2 ^ 53 /\
    ((eF = e /\ Zpos mF = round_nearest_even m l) \/
     (eF = e + 1 /\ m = 2 ^ 53 - 1 /\ round_nearest_even m l = m + 1)).
Proof.
  intros Hm He. unfold binary_round_aux.
  rewrite shr_fexp_53 by lia.
  rewrite shr_m_record_of_loc, loc_of_shr_record_of_loc.
  set (q := round_nearest_even m l).
  assert (Hq : q = m \/ q = m + 1) by apply round_nearest_even_cases.
  destruct (Z.eq_dec q (2 ^ 53)) as [Hcarry | Hno].
  - rewrite Hcarry. exists (4503599627370496)%positive, (e + 1).
    rewrite shr_fexp_54 by lia.
    cbn [shr_record_of_loc shr_1 shr_m Z.pow Z.pow_pos Pos.iter Z.mul Pos.mul].
    replace (e + 1 <=? Py.emax - Py.prec) with true
      by (symmetry; apply Z.leb_le; unfold Py.emax, Py.prec; lia).
    split; [reflexivity|]. split; [lia|]. right. lia.
  - rewrite shr_fexp_53 by lia. cbn [shr_record_of_loc shr_m].
    destruct q as [|p|p] eqn:Hp; try lia.
    exists p, e.
    replace (e <=? Py.emax - Py.prec) with true
      by (symmetry; apply Z.leb_le; unfold Py.emax, Py.prec; lia).
    split; [reflexivity|]. split; [lia|]. left. split; reflexivity.
Qed.

(** Rounding a mantissa of 54 digits: shift by one bit, then as above. *)
Lemma binary_round_aux_54 (s : bool) (m e : Z) (l : location) :
  2 ^ 53 <= m < 2 ^ 54 -> -1074 <= e <= 969 ->
  exists (mF : positive) (eF : Z),
    binary_round_aux Py.prec Py.emax s m e l = S754_finite s mF eF /\
    2 ^ 52 <= Zpos mF < 2 ^ 53 /\
    (eF = e + 1 \/ (eF = e + 2 /\ m = 2 ^ 54 - 1)).
Proof.
  intros Hm He.
  set (r := shr_1 (shr_record_of_loc m l)).
  assert (Hr : shr_m r = m / 2).
  { subst r. destruct l as [|[]]; apply shr_1_m; lia. }
  assert (Hhalf : 2 ^ 52 <= m / 2 < 2 ^ 53).
  { split; [apply Z.div_le_lower_bound; lia|apply Z.div_lt_upper_bound; lia]. }
  assert (Heq : binary_round_aux Py.prec Py.emax s m e l
                = binary_round_aux Py.prec Py.emax s (shr_m r) (e + 1) (loc_of_shr_record r)).
  { unfold binary_round_aux. rewrite shr_fexp_54 by lia.
    rewrite (shr_fexp_53 (shr_m r)) by lia.
    rewrite shr_record_of_loc_of_record. reflexivity. }
  rewrite Heq.
  destruct (binary_round_aux_53 s (shr_m r) (e + 1) (loc_of_shr_record r))
    as (mF & eF & Hres & HmF & Hcase); [lia|lia|].
  exists mF, eF. split; [exact Hres|]. split; [exact HmF|].
  destruct Hcase as [[-> _] | (-> & Hmax & Hup)]; [left; reflexivity|].
  right. split; [lia|].
  pose proof (shr_1_round_up m l ltac:(lia) Hup) as Hodd.
  rewrite Hr in Hmax.
  rewrite (Z.div_mod m 2) by lia. rewrite Hmax.
  rewrite <- Z.bit0_mod, Z.bit0_odd, Hodd. reflexivity.
Qed.

Lemma pow2_52 : 2 ^ 52 = 4503599627370496.
Proof. reflexivity. Qed.

Lemma float_lt_pow2 (mF : positive) (eF t : Z) :
  2 ^ 52 <= Zpos mF ->
  Py.float_lt (S754_finite false mF eF) (S754_finite false 4503599627370496 t) = (eF <? t).
Proof.
  intros HmF. unfold Py.float_lt, SFltb, SFcompare.
  destruct (Z.compare_spec eF t) as [Heq | Hlt | Hgt].
  - rewrite Pos.compare_cont_spec. cbn [Pos.switch_Eq].
    replace (eF <? t) with false by (symmetry; apply Z.ltb_ge; lia).
    destruct (Pos.compare_spec mF 4503599627370496) as [?|Hl|?]; try reflexivity.
    exfalso. rewrite pow2_52 in HmF.
    exact (Z.lt_irrefl _ (Z.le_lt_trans _ _ _ HmF (Pos2Z.pos_lt_pos _ _ Hl))).
  - symmetry. apply Z.ltb_lt. lia.
  - symmetry. apply Z.ltb_ge. lia.
Qed.

Lemma new_location_round_up (b r q : Z) :
  0 <= r < b ->
  round_nearest_even q (new_location b r) = q + 1 -> b <= 2 * r.
Proof.
  intros Hr. unfold new_location, new_location_even, new_location_odd.
  destruct (Z.even b) eqn:Hev.
  - destruct (Z.eqb_spec r 0) as [->|Hr0]; cbn [round_nearest_even]; [lia|].
    destruct (Z.compare_spec (2 * r) b); cbn [round_nearest_even]; lia.
  - destruct (Z.eqb_spec r 0) as [->|Hr0]; cbn [round_nearest_even]; [lia|].
    destruct (Z.compare_spec (2 * r + 1) b); cbn [round_nearest_even]; lia.
Qed.

Lemma Zdigits2_le_53 (a : Z) : 0 < a < 2 ^ 53 -> 1 <= Zdigits2 a <= 53.
Proof.
  intros Ha. pose proof (Zdigits2_bounds a ltac:(lia)) as Hb.
  rewrite Zdigits2_log2 in * by lia.
  pose proof (Z.log2_nonneg a).
  assert (Z.log2 a < 53) by (apply Z.log2_lt_pow2; lia). lia.
Qed.

(** The quotient and the exponent the division starts from. *)
Lemma SFdiv_core_small (a b : Z) :
  0 < a < 2 ^ 53 -> 0 < b < 2 ^ 53 ->
  let s := 53 - Zdigits2 a + Zdigits2 b in
  SFdiv_core_binary Py.prec Py.emax a 0 b 0
  = (a * 2 ^ s / b, - s, new_location b ((a * 2 ^ s) mod b)).
Proof.
  intros Ha Hb s.
  pose proof (Zdigits2_le_53 a Ha) as Hda. pose proof (Zdigits2_le_53 b Hb) as Hdb.
  unfold SFdiv_core_binary.
  replace (Z.min (fexp Py.prec Py.emax (Zdigits2 a + 0 - (Zdigits2 b + 0))) (0 - 0))
    with (- s) by (unfold fexp, emin, Py.prec, Py.emax; subst s; lia).
  replace (0 - 0 - - s) with s by lia.
  assert (Hs : 0 < s) by (subst s; lia).
  destruct s as [|p|p] eqn:Hp; try lia.
  rewrite Z.shiftl_mul_pow2 by lia.
  unfold Z.div, Z.modulo.
  destruct (Z.div_eucl (a * 2 ^ Z.pos p) b) as [q r]. reflexivity.
Qed.

Lemma pow2_split (n : Z) : 0 < n -> 2 ^ n = 2 * 2 ^ (n - 1).
Proof. intros Hn. rewrite <- Z.pow_succ_r by lia. f_equal. lia. Qed.

(** The quotient of two positive integers below [2^53], as a float: a
    mantissa of 53 digits and an exponent [eF]; the float is below
    [2^(-k)] exactly when [2^k * a < b]. *)
Lemma truediv_small_threshold (a b : Z) (sgn : bool) :
  0 < a < 2 ^ 53 -> 0 < b < 2 ^ 53 ->
  exists (mF : positive) (eF : Z),
    (let '(q, e, l) := SFdiv_core_binary Py.prec Py.emax a 0 b 0 in
     binary_round_aux Py.prec Py.emax sgn q e l) = S754_finite sgn mF eF /\
    2 ^ 52 <= Zpos mF /\
    forall k, 0 <= k <= 2 -> (eF <? - 52 - k) = (2 ^ k * a <? b).
Proof.
  intros Ha Hb.
  pose proof (Zdigits2_le_53 a Ha) as Hda. pose proof (Zdigits2_le_53 b Hb) as Hdb.
  pose proof (Zdigits2_bounds a ltac:(lia)) as Hba.
  pose proof (Zdigits2_bounds b ltac:(lia)) as Hbb.
  rewrite SFdiv_core_small by assumption.
  set (d1 := Zdigits2 a) in *. set (d2 := Zdigits2 b) in *.
  set (s := 53 - d1 + d2).
  rewrite (pow2_split d1) in Hba by lia. rewrite (pow2_split d2) in Hbb by lia.
  assert (Hrel : 2 ^ (d1 - 1) * 2 ^ s = 2 * 2 ^ 52 * 2 ^ (d2 - 1)).
  { rewrite <- Z.pow_add_r by (subst s; lia).
    replace (2 * 2 ^ 52) with (2 ^ 53) by reflexivity.
    rewrite <- Z.pow_add_r by lia. f_equal. subst s. lia. }
  assert (HX1 : 0 < 2 ^ (d1 - 1)) by (apply Z.pow_pos_nonneg; lia).
  assert (HX2 : 0 < 2 ^ (d2 - 1)) by (apply Z.pow_pos_nonneg; lia).
  assert (HP : 0 < 2 ^ s) by (apply Z.pow_pos_nonneg; subst s; lia).
  pose proof (Z.div_mod (a * 2 ^ s) b ltac:(lia)) as Hdiv.
  pose proof (Z.mod_pos_bound (a * 2 ^ s) b ltac:(lia)) as Hr.
  set (q := a * 2 ^ s / b) in *. set (r := (a * 2 ^ s) mod b) in *.
  assert (H53 : 2 ^ 53 = 2 * 2 ^ 52) by reflexivity.
  assert (H54 : 2 ^ 54 = 4 * 2 ^ 52) by reflexivity.
  assert (HT : 0 < 2 ^ 52) by reflexivity.
  rewrite H53 in Ha, Hb.
  assert (Hq : 2 ^ 52 <= q < 4 * 2 ^ 52).
  { generalize dependent (2 ^ 52). generalize dependent (2 ^ s).
    generalize dependent (2 ^ (d1 - 1)). generalize dependent (2 ^ (d2 - 1)).
    intros X2 ? ? X1 ? ? P ? ? ? T ? ? ? ? ?. split; nia. }
  (* the four relations between the powers, by the difference of the digits *)
  assert (Hpow : forall k, 0 <= k <= 2 ->
     (d1 - d2 >= 1 - k -> 2 * 2 ^ (d2 - 1) <= 2 ^ k * 2 ^ (d1 - 1)) /\
     (d1 - d2 <= - k - 2 -> 4 * 2 ^ k * 2 ^ (d1 - 1) <= 2 ^ (d2 - 1)) /\
     (d1 - d2 = - k - 1 -> 2 ^ s = 4 * 2 ^ 52 * 2 ^ k) /\
     (d1 - d2 = - k -> 2 ^ s = 2 * 2 ^ 52 * 2 ^ k)).
  { intros k Hk. repeat split; intros Hd.
    - rewrite <- Z.pow_succ_r by lia. rewrite <- Z.pow_add_r by lia.
      apply Z.pow_le_mono_r; lia.
    - replace 4 with (2 ^ 2) by reflexivity.
      rewrite <- !Z.pow_add_r by lia. apply Z.pow_le_mono_r; lia.
    - rewrite <- H54. rewrite <- Z.pow_add_r by lia. f_equal. subst s. lia.
    - rewrite <- H53. rewrite <- Z.pow_add_r by lia. f_equal. subst s. lia. }
  assert (Hs : 1 <= s <= 105) by (subst s; lia).
  destruct (Z.lt_ge_cases q (2 * 2 ^ 52)) as [Hlt | Hge].
  - (* 53 digits *)
    destruct (binary_round_aux_53 sgn q (- s) (new_location b r))
      as (mF & eF & Hres & HmF & Hcase); [rewrite H53; lia|lia|].
    exists mF, eF. split; [exact Hres|]. split; [lia|].
    intros k Hk. destruct (Hpow k Hk) as (Hp1 & Hp2 & Hp3 & Hp4).
    assert (HK : 0 < 2 ^ k) by (apply Z.pow_pos_nonneg; lia).
    destruct Hcase as [[-> _] | (-> & Hmax & Hup)].
    + destruct (Z.ltb_spec (- s) (- 52 - k)) as [He | He];
        destruct (Z.ltb_spec (2 ^ k * a) b) as [Hab | Hab]; try reflexivity; exfalso.
      * (* exponent small, ratio large *)
        assert (Hd : d1 - d2 <= - k - 2 \/ d1 - d2 = - k - 1 \/ d1 - d2 = - k)
          by (subst s; lia).
        destruct Hd as [Hd | [Hd | Hd]].
        -- specialize (Hp2 Hd). nia.
        -- specialize (Hp3 Hd).
           assert (2 ^ k * (2 * 2 ^ (d1 - 1)) = 2 ^ (d2 - 1)).
           { rewrite <- Z.pow_succ_r by lia. rewrite <- Z.pow_add_r by lia. f_equal. lia. }
           nia.
        -- specialize (Hp4 Hd). rewrite Hp4 in Hdiv.
           generalize dependent (2 ^ 52). generalize dependent (2 ^ k). intros. nia.
      * (* exponent large, ratio small *)
        assert (Hd : d1 - d2 >= 1 - k) by (subst s; lia).
        specialize (Hp1 Hd). nia.
    + (* carry: impossible when the ratio is below the threshold *)
      apply new_location_round_up in Hup; [|lia].
      destruct (Z.ltb_spec (- s + 1) (- 52 - k)) as [He | He];
        destruct (Z.ltb_spec (2 ^ k * a) b) as [Hab | Hab]; try reflexivity; exfalso.
      * assert (Hd : d1 - d2 <= - k - 2 \/ d1 - d2 = - k - 1) by (subst s; lia).
        destruct Hd as [Hd | Hd].
        -- specialize (Hp2 Hd). nia.
        -- specialize (Hp3 Hd).
           assert (2 ^ k * (2 * 2 ^ (d1 - 1)) = 2 ^ (d2 - 1)).
           { rewrite <- Z.pow_succ_r by lia. rewrite <- Z.pow_add_r by lia. f_equal. lia. }
           nia.
      * assert (Hd : d1 - d2 >= 1 - k \/ d1 - d2 = - k) by (subst s; lia).
        destruct Hd as [Hd | Hd].
        -- specialize (Hp1 Hd). nia.
        -- specialize (Hp4 Hd). rewrite Hp4 in Hdiv. rewrite H53 in Hmax.
           generalize dependent (2 ^ 52). generalize dependent (2 ^ k). intros. nia.
  - (* 54 digits *)
    destruct (binary_round_aux_54 sgn q (- s) (new_location b r))
      as (mF & eF & Hres & HmF & Hcase); [rewrite H53, H54; lia|lia|].
    exists mF, eF. split; [exact Hres|]. split; [lia|].
    intros k Hk. destruct (Hpow k Hk) as (Hp1 & Hp2 & Hp3 & Hp4).
    assert (HK : 0 < 2 ^ k) by (apply Z.pow_pos_nonneg; lia).
    destruct Hcase as [-> | [-> Hmax]].
    + destruct (Z.ltb_spec (- s + 1) (- 52 - k)) as [He | He];
        destruct (Z.ltb_spec (2 ^ k * a) b) as [Hab | Hab]; try reflexivity; exfalso.
      * assert (Hd : d1 - d2 <= - k - 2 \/ d1 - d2 = - k - 1) by (subst s; lia).
        destruct Hd as [Hd | Hd].
        -- specialize (Hp2 Hd). nia.
        -- specialize (Hp3 Hd).
           assert (2 ^ k * (2 * 2 ^ (d1 - 1)) = 2 ^ (d2 - 1)).
           { rewrite <- Z.pow_succ_r by lia. rewrite <- Z.pow_add_r by lia. f_equal. lia. }
           nia.
      * assert (Hd : d1 - d2 >= 1 - k \/ d1 - d2 = - k) by (subst s; lia).
        destruct Hd as [Hd | Hd].
        -- specialize (Hp1 Hd). nia.
        -- specialize (Hp4 Hd). rewrite Hp4 in Hdiv.
           generalize dependent (2 ^ 52). generalize dependent (2 ^ k). intros. nia.
    + rewrite H54 in Hmax.
      destruct (Z.ltb_spec (- s + 2) (- 52 - k)) as [He | He];
        destruct (Z.ltb_spec (2 ^ k * a) b) as [Hab | Hab]; try reflexivity; exfalso.
      * assert (Hd : d1 - d2 <= - k - 2) by (subst s; lia).
        specialize (Hp2 Hd). nia.
      * assert (Hd : d1 - d2 >= 1 - k \/ d1 - d2 = - k \/ d1 - d2 = - k - 1) by (subst s; lia).
        destruct Hd as [Hd | [Hd | Hd]].
        -- specialize (Hp1 Hd). nia.
        -- specialize (Hp4 Hd). rewrite Hp4 in Hdiv.
           generalize dependent (2 ^ 52). generalize dependent (2 ^ k). intros. nia.
        -- specialize (Hp3 Hd). rewrite Hp3 in Hdiv.
           generalize dependent (2 ^ 52). generalize dependent (2 ^ k). intros. nia.
Qed.

Lemma bar_color_of_lt (percent : Py.float) :
  bar_color_of percent =
  if Py.float_lt percent Py.float_0_25 then Fore.RED
  else if Py.float_lt percent Py.float_0_5 then Fore.YELLOW
  else Fore.GREEN.
Proof.
  unfold bar_color_of.
  destruct (Py.float_lt percent Py.float_0_25), (Py.float_lt percent Py.float_0_5); reflexivity.
Qed.

(** For integers below [2^53] in absolute value the colour is the one of
    the exact ratio. *)
Lemma bar_color_small (hp max_hp : Z) :
  0 < max_hp < 2 ^ 53 -> - 2 ^ 53 < hp < 2 ^ 53 ->
  exists percent,
    percent_of hp max_hp = Ok percent /\
    bar_color_of percent = BarSpec.color (BarSpec.classify hp max_hp).
Proof.
  intros Hm Hh. unfold percent_of, Py.int_truediv.
  destruct (Z.eqb_spec max_hp 0) as [?|_]; [lia|].
  destruct (Z.eqb_spec hp 0) as [->|Hnz].
  - eexists. split; [reflexivity|].
    replace (max_hp <? 0) with false by (symmetry; apply Z.ltb_ge; lia).
    unfold BarSpec.classify.
    replace (4 * 0 <? max_hp) with true by (symmetry; apply Z.ltb_lt; lia).
    reflexivity.
  - assert (Ha : 0 < Z.abs hp < 2 ^ 53) by lia.
    rewrite (Z.abs_eq max_hp) by lia.
    replace (max_hp <? 0) with false by (symmetry; apply Z.ltb_ge; lia).
    destruct (truediv_small_threshold (Z.abs hp) max_hp (xorb (hp <? 0) false) Ha Hm)
      as (mF & eF & Hres & HmF & Hthr).
    destruct (SFdiv_core_binary Py.prec Py.emax (Z.abs hp) 0 max_hp 0) as [[q e] l].
    rewrite Hres. eexists. split; [reflexivity|].
    rewrite bar_color_of_lt. unfold BarSpec.classify.
    destruct (Z.ltb_spec hp 0) as [Hneg | Hpos]; cbn [xorb].
    + replace (4 * hp <? max_hp) with true by (symmetry; apply Z.ltb_lt; lia).
      reflexivity.
    + unfold Py.float_0_25, Py.float_0_5.
      rewrite !float_lt_pow2 by exact HmF.
      pose proof (Hthr 2 ltac:(lia)) as H2. pose proof (Hthr 1 ltac:(lia)) as H1.
      change (- 52 - 2) with (- 54) in H2. change (- 52 - 1) with (- 53) in H1.
      change (2 ^ 2) with 4 in H2. change (2 ^ 1) with 2 in H1.
      rewrite (Z.abs_eq hp) in H1, H2 by lia.
      rewrite H2, H1.
      destruct (4 * hp <? max_hp), (2 * hp <? max_hp); reflexivity.
Qed.

(** *** The colour and the rest of the bar *)

Lemma display_status_frame (w w' : World) (p e : ref) :
  display_status p e w = Ok (tt, w') ->
  (mem w', player w', enemy w', keys w', lines w', draws w')
  = (mem w, player w, enemy w, keys w, lines w, draws w).
Proof.
  unfold display_status, os_system_clear, print, emit, load, lift, bind.
  cbn -[get_health_bar].
  destruct (mem w !! p) as [pc|]; [|discriminate].
  destruct (get_health_bar (Character.hp pc) (Character.max_hp pc) None); [|discriminate].
  cbn -[get_health_bar].
  destruct (mem w !! e) as [ec|]; [|discriminate].
  destruct (get_health_bar (Character.hp ec) (Character.max_hp ec) None); [|discriminate].
  intros [= <-]. reflexivity.
Qed.

(** C7, as stated, fails for integers that floats cannot tell apart: the
    ratio of [2^60 - 1] to [2^61] is below 0.5, but the float quotient is
    0.5 exactly and the bar is green. *)
Lemma severity_differs_for_huge_integers :
  exists percent,
    percent_of (2 ^ 60 - 1) (2 ^ 61) = Ok percent /\
    2 * (2 ^ 60 - 1) < 2 ^ 61 /\
    BarSpec.classify (2 ^ 60 - 1) (2 ^ 61) = BarSpec.Warning /\
    bar_color_of percent = Fore.GREEN /\
    bar_color_of percent <> BarSpec.color (BarSpec.classify (2 ^ 60 - 1) (2 ^ 61)).
Proof.
  eexists. split; [vm_compute; reflexivity|].
  split; [reflexivity|]. split; [reflexivity|]. split; [reflexivity|].
  vm_compute. discriminate.
Qed.

(** C7, amended: for [0 < max_hp < 2^53] and [|hp| < 2^53] the colour is
    decided by the exact ratio [hp / max_hp]: green (normal) when it is at
    least 0.5, yellow (warning) from 0.25 up to 0.5, red (critical) below
    0.25.  The colour code is the only part of the result that depends on
    it: the glyphs and the label left by [strip_ansi] do not.  Showing the
    bars (in [display_status]) changes nothing but the terminal output. *)
Theorem severity_by_ratio (hp max_hp : Z) (length : option Z)
    (Hm : 0 < max_hp < 2 ^ 53) (Hh : - 2 ^ 53 < hp < 2 ^ 53) :
  (exists percent,
      percent_of hp max_hp = Ok percent /\
      bar_color_of percent = BarSpec.color (BarSpec.classify hp max_hp)) /\
  (BarSpec.classify hp max_hp = BarSpec.Normal <-> max_hp <= 2 * hp) /\
  (BarSpec.classify hp max_hp = BarSpec.Warning <-> max_hp <= 4 * hp /\ 2 * hp < max_hp) /\
  (BarSpec.classify hp max_hp = BarSpec.Critical <-> 4 * hp < max_hp) /\
  (forall s, get_health_bar hp max_hp length = Ok s ->
     exists n,
       filled_length_of hp max_hp (default 20 length) = Ok n /\
       s = "[" ++ (BarSpec.color (BarSpec.classify hp max_hp)
                   ++ Py.str_mul FULL_BLOCK n ++ Style.RESET_ALL
                   ++ Py.str_mul LIGHT_HORIZONTAL (default 20 length - n))
           ++ "] " ++ Py.str hp ++ "/" ++ Py.str max_hp /\
       strip_ansi s =
       "[" ++ Py.str_mul FULL_BLOCK n ++ Py.str_mul LIGHT_HORIZONTAL (default 20 length - n)
       ++ "] " ++ Py.str hp ++ "/" ++ Py.str max_hp) /\
  (forall (w w' : World) (p e : ref),
     display_status p e w = Ok (tt, w') ->
     (mem w', player w', enemy w', keys w', lines w', draws w')
     = (mem w, player w, enemy w, keys w, lines w, draws w)).
Proof.
  destruct (bar_color_small hp max_hp Hm Hh) as (percent & Hper & Hcol).
  split; [exists percent; split; assumption|].
  unfold BarSpec.classify at 1 2 3.
  split.
  { destruct (Z.ltb_spec (4 * hp) max_hp); [split; [discriminate|lia]|].
    destruct (Z.ltb_spec (2 * hp) max_hp); split; try discriminate; try lia. reflexivity. }
  split.
  { destruct (Z.ltb_spec (4 * hp) max_hp); [split; [discriminate|lia]|].
    destruct (Z.ltb_spec (2 * hp) max_hp); split; try discriminate; try lia. reflexivity. }
  split.
  { destruct (Z.ltb_spec (4 * hp) max_hp); [split; [lia|reflexivity]|].
    destruct (Z.ltb_spec (2 * hp) max_hp); split; try discriminate; lia. }
  split; [|apply display_status_frame].
  intros s Hs.
  destruct (get_health_bar_stripped hp max_hp length s Hs)
    as (percent' & n & Hper' & Hn & Hs' & Hstrip).
  rewrite Hper in Hper'. injection Hper' as <-.
  exists n. split; [exact Hn|]. split; [|exact Hstrip].
  rewrite Hs', Hcol. reflexivity.
Qed.

Lemma severity_by_ratio_witness :
  (exists percent,
      percent_of 30 100 = Ok percent /\
      bar_color_of percent = BarSpec.color (BarSpec.classify 30 100)) /\
  (BarSpec.classify 30 100 = BarSpec.Normal <-> 100 <= 2 * 30) /\
  (BarSpec.classify 30 100 = BarSpec.Warning <-> 100 <= 4 * 30 /\ 2 * 30 < 100) /\
  (BarSpec.classify 30 100 = BarSpec.Critical <-> 4 * 30 < 100) /\
  (forall s, get_health_bar 30 100 None = Ok s ->
     exists n,
       filled_length_of 30 100 (default 20 None) = Ok n /\
       s = "[" ++ (BarSpec.color (BarSpec.classify 30 100)
                   ++ Py.str_mul FULL_BLOCK n ++ Style.RESET_ALL
                   ++ Py.str_mul LIGHT_HORIZONTAL (default 20 None - n))
           ++ "] " ++ Py.str 30 ++ "/" ++ Py.str 100 /\
       strip_ansi s =
       "[" ++ Py.str_mul FULL_BLOCK n ++ Py.str_mul LIGHT_HORIZONTAL (default 20 None - n)
       ++ "] " ++ Py.str 30 ++ "/" ++ Py.str 100) /\
  (forall (w w' : World) (p e : ref),
     display_status p e w = Ok (tt, w') ->
     (mem w', player w', enemy w', keys w', lines w', draws w')
     = (mem w, player w, enemy w, keys w, lines w, draws w)).
Proof.
  apply (severity_by_ratio 30 100 None); split; reflexivity.
Defined.

(** * Further properties of the code *)

(** ** Character *)

(** X1: [n] attacks in a row on a character whose [hp] is not negative, by
    an attacker whose [ap] is not negative, leave it with
    [max 0 (hp - n * ap)]: the damage adds up until [hp] is 0 and then
    stays there.  This holds also when the attacker is the target. *)
Theorem attacks_add_up (n : nat) (w : World) (self target : ref) (s t : Character.t)
    (Hs : mem w !! self = Some s) (Ht : mem w !! target = Some t)
    (Hap : 0 <= Character.ap s) (Hhp : 0 <= Character.hp t) :
  exists w',
    attacks n self target w = Ok (tt, w') /\
    mem w' !! target
    = Some (Character.with_hp t (Z.max 0 (Character.hp t - Z.of_nat n * Character.ap s))) /\
    (Character.hp t = 0 -> mem w' !! target = Some t).
Proof.
  revert w s t Hs Ht Hap Hhp. induction n as [|n IH]; intros w s t Hs Ht Hap Hhp.
  - exists w. split; [reflexivity|].
    assert (Hid : Character.with_hp t (Z.max 0 (Character.hp t - Z.of_nat 0 * Character.ap s)) = t).
    { destruct t as [nm m h a]. unfold Character.with_hp; cbn in *. f_equal. lia. }
    rewrite Hid. split; [exact Ht|]. intros _. exact Ht.
  - cbn [attacks]. rewrite (bind_ok _ _ _ _ _ (attack_ok _ _ _ _ _ Hs Ht)).
    set (t1 := Character.with_hp t (Z.max 0 (Character.hp t - Character.ap s))).
    set (w1 := set_mem (<[target := t1]> (mem w)) w).
    assert (Hlt : (target < length (mem w))%nat) by (eapply lookup_lt_mem, Ht).
    assert (Ht1 : mem w1 !! target = Some t1) by (cbn; by apply list_lookup_insert_eq).
    assert (Hs1 : exists s1, mem w1 !! self = Some s1 /\ Character.ap s1 = Character.ap s).
    { destruct (decide (self = target)) as [->|Hne].
      - exists t1. split; [exact Ht1|]. rewrite Hs in Ht. injection Ht as ->. reflexivity.
      - exists s. split; [|reflexivity]. cbn. by rewrite list_lookup_insert_ne. }
    destruct Hs1 as (s1 & Hs1 & Hap1).
    destruct (IH w1 s1 t1 Hs1 Ht1 ltac:(lia) ltac:(subst t1; cbn; lia))
      as (w' & Hrun & Hres & _).
    exists w'. split; [exact Hrun|].
    assert (Heq : Character.with_hp t1 (Z.max 0 (Character.hp t1 - Z.of_nat n * Character.ap s1))
                  = Character.with_hp t (Z.max 0 (Character.hp t - Z.of_nat (S n) * Character.ap s))).
    { subst t1. unfold Character.with_hp; cbn. rewrite Hap1. f_equal. nia. }
    rewrite Heq in Hres. split; [exact Hres|].
    intros H0. rewrite Hres. f_equal.
    destruct t as [nm m h a]. unfold Character.with_hp; cbn in *. f_equal. nia.
Qed.

Lemma attacks_add_up_witness :
  exists w',
    attacks 3 1%nat 0%nat fallen = Ok (tt, w') /\
    mem w' !! 0%nat
    = Some (Character.with_hp (Character.mk "A" 100 40 15) (Z.max 0 (40 - Z.of_nat 3 * 10))) /\
    (40 = 0 -> mem w' !! 0%nat = Some (Character.mk "A" 100 40 15)).
Proof.
  refine (attacks_add_up 3 fallen 1%nat 0%nat (Character.mk "B" 50 0 10)
            (Character.mk "A" 100 40 15) eq_refl eq_refl _ _); cbn; lia.
Defined.

(** X2: [heal] does not check that the character is alive: at 0 hit points,
    with a positive [max_hp] and a draw between 10 and 20, it sets [hp] to
    [min max_hp d], and the character that was not alive is alive again. *)
Theorem heal_revives (w : World) (self : ref) (s : Character.t) (d : Z) (ds : list Z)
    (Hs : mem w !! self = Some s) (Hd : draws w = d :: ds)
    (Hdead : Character.hp s = 0) (Hmax : 0 < Character.max_hp s) (Hr : 10 <= d <= 20) :
  is_alive self w = Ok (false, w) /\
  exists w',
    heal self w = Ok (d, w') /\
    mem w' !! self = Some (Character.with_hp s (Z.min (Character.max_hp s) d)) /\
    is_alive self w' = Ok (true, w').
Proof.
  split.
  { rewrite (is_alive_ok _ _ _ Hs), Hdead. reflexivity. }
  eexists. split; [apply (heal_ok _ _ _ _ _ Hs Hd)|].
  assert (Hnew : <[self := Character.with_hp s (Z.min (Character.max_hp s) (Character.hp s + d))]>
                   (mem w) !! self
                 = Some (Character.with_hp s (Z.min (Character.max_hp s) d))).
  { rewrite Hdead, Z.add_0_l. apply list_lookup_insert_eq. eapply lookup_lt_mem, Hs. }
  split; [exact Hnew|].
  match goal with |- is_alive self ?w1 = _ =>
    rewrite (is_alive_ok w1 self _ Hnew) end.
  cbn. replace (0 <? Z.min (Character.max_hp s) d) with true; [reflexivity|].
  symmetry. apply Z.ltb_lt. lia.
Qed.

Lemma heal_revives_witness :
  is_alive 1%nat fallen = Ok (false, fallen) /\
  exists w',
    heal 1%nat fallen = Ok (12, w') /\
    mem w' !! 1%nat = Some (Character.with_hp (Character.mk "B" 50 0 10) (Z.min 50 12)) /\
    is_alive 1%nat w' = Ok (true, w').
Proof.
  refine (heal_revives fallen 1%nat (Character.mk "B" 50 0 10) 12 [] eq_refl eq_refl eq_refl _ _);
    cbn; lia.
Defined.

Lemma run_call_keeps_fields (c : call) (w w' : World) :
  run_call c w = Ok (tt, w') ->
  forall (r : ref) x, mem w !! r = Some x ->
    exists x', mem w' !! r = Some x' /\
      Character.name x' = Character.name x /\
      Character.max_hp x' = Character.max_hp x /\
      Character.ap x' = Character.ap x.
Proof.
  intros Hrun r x Hx. destruct c as [name hp ap|self target|self]; unfold run_call in Hrun.
  - injection Hrun as <-. exists x. split; [|auto]. cbn. by apply lookup_app_l_Some.
  - unfold attack, bind, load, store_hp, ret in Hrun.
    destruct (mem w !! self) as [s|]; [|discriminate].
    destruct (mem w !! target) as [t|] eqn:Ht; [|discriminate].
    cbn in Hrun. rewrite Ht in Hrun. injection Hrun as <-. cbn.
    destruct (decide (r = target)) as [->|Hne].
    + assert (t = x) as -> by congruence.
      eexists. split; [apply list_lookup_insert_eq; eapply lookup_lt_mem, Hx|]. auto.
    + exists x. split; [by rewrite list_lookup_insert_ne|auto].
  - unfold heal, bind, randint, load, store_hp, ret in Hrun.
    destruct (draws w) as [|d ds]; [discriminate|]. cbn in Hrun.
    destruct (mem w !! self) as [s|] eqn:Hs; [|discriminate].
    cbn in Hrun. rewrite Hs in Hrun. injection Hrun as <-. cbn.
    destruct (decide (r = self)) as [->|Hne].
    + assert (s = x) as -> by congruence.
      eexists. split; [apply list_lookup_insert_eq; eapply lookup_lt_mem, Hx|]. auto.
    + exists x. split; [by rewrite list_lookup_insert_ne|auto].
Qed.

(** X3: whatever the constructor, [attack] and [heal] calls made, in any
    order, every object that exists stays where it is and keeps its [name],
    its [max_hp] and its [ap]: [hp] is the only attribute the methods
    write. *)
Theorem calls_keep_name_max_hp_ap (cs : list call) (w w' : World) (r : ref) (x : Character.t)
    (Hrun : run_calls cs w = Ok (tt, w'))
    (Hx : mem w !! r = Some x) :
  exists x', mem w' !! r = Some x' /\
    Character.name x' = Character.name x /\
    Character.max_hp x' = Character.max_hp x /\
    Character.ap x' = Character.ap x.
Proof.
  revert w x Hrun Hx. induction cs as [|c cs IH]; intros w x Hrun Hx.
  - injection Hrun as <-. eauto.
  - cbn [run_calls] in Hrun. unfold bind in Hrun.
    destruct (run_call c w) as [[[] w1]|e] eqn:Hc; [|discriminate].
    destruct (run_call_keeps_fields c w w1 Hc r x Hx) as (x1 & Hx1 & Hn1 & Hm1 & Ha1).
    destruct (IH w1 x1 Hrun Hx1) as (x' & Hx' & Hn & Hm & Ha).
    exists x'. split; [exact Hx'|]. split; [congruence|]. split; congruence.
Qed.

Lemma calls_keep_name_max_hp_ap_witness :
  exists x', mem (mkWorld [Character.mk "A" 100 30 15; Character.mk "B" 50 12 10]
                    (Some 0%nat) (Some 1%nat) [] [] [] []) !! 1%nat = Some x' /\
    Character.name x' = "B" /\
    Character.max_hp x' = 50 /\
    Character.ap x' = 10.
Proof.
  exact (calls_keep_name_max_hp_ap [CallAttack 1%nat 0%nat; CallHeal 1%nat] fallen _ 1%nat
           (Character.mk "B" 50 0 10) eq_refl eq_refl).
Defined.

(** ** get_health_bar and display_status at max_hp = 0 *)

Lemma get_health_bar_zero_max (hp : Z) (length : option Z) :
  get_health_bar hp 0 length = Raise ZeroDivisionError.
Proof. reflexivity. Qed.

(** X4: a character whose [max_hp] is 0 (one created with [hp = 0]) has no
    health bar: [get_health_bar] raises [ZeroDivisionError] for every [hp]
    and every length, and [display_status] raises it when the player is
    such a character, or when the enemy is and the player's bar is
    computed. *)
Theorem no_health_bar_at_max_hp_zero (w : World) (p e : ref) (pc ec : Character.t)
    (Hp : mem w !! p = Some pc) (He : mem w !! e = Some ec)
    (Hzero : Character.max_hp pc = 0 \/
             (Character.max_hp ec = 0 /\
              is_ok (get_health_bar (Character.hp pc) (Character.max_hp pc) None) = true)) :
  (forall hp length, get_health_bar hp 0 length = Raise ZeroDivisionError) /\
  display_status p e w = Raise ZeroDivisionError.
Proof.
  split; [apply get_health_bar_zero_max|].
  unfold display_status, os_system_clear, print, emit, load, lift, bind.
  cbn -[get_health_bar]. rewrite Hp.
  destruct Hzero as [H0 | [H0 Hok]].
  - rewrite H0, get_health_bar_zero_max. reflexivity.
  - destruct (get_health_bar (Character.hp pc) (Character.max_hp pc) None); [|discriminate].
    cbn -[get_health_bar]. rewrite He, H0, get_health_bar_zero_max. reflexivity.
Qed.

Lemma no_health_bar_at_max_hp_zero_witness :
  (forall hp length, get_health_bar hp 0 length = Raise ZeroDivisionError) /\
  display_status 0%nat 1%nat hollow = Raise ZeroDivisionError.
Proof.
  refine (no_health_bar_at_max_hp_zero hollow 0%nat 1%nat (Character.mk "Z" 0 0 5)
            (Character.mk "B" 50 20 10) eq_refl eq_refl _).
  left. reflexivity.
Defined.

(** ** get_player_action *)






(** X6: with no option at all the menu cannot be used: the first arrow key
    raises [ZeroDivisionError] (the index modulo 0) and Enter as the first
    key raises [IndexError]; with no key press at all it waits. *)
Theorem get_player_action_no_options (k : string) (ks : list string)
    (php ehp : Z) (ls : list string) (ds : list Z) (o : list event)
    (Hp : 0 <= php <= 100) (He : 0 <= ehp <= 80)
    (Hk : is_up k = true \/ is_down k = true \/ is_enter k = true) :
  get_player_action [] (battle php ehp (k :: ks) ls ds o)
  = Raise (if is_up k || is_down k then ZeroDivisionError else IndexError) /\
  get_player_action [] (battle php ehp [] ls ds o) = Raise NoKey.
Proof.
  unfold get_player_action. cbn [keys battle length menu_loop]. split.
  - step (global_player_battle php ehp (k :: ks) ls ds o).
    step (global_enemy_battle php ehp (k :: ks) ls ds o).
    destruct (display_status_battle php ehp (k :: ks) ls ds o Hp He) as [o1 H1]. step H1.
    erewrite bind_ok by apply print_battle.
    erewrite bind_ok by reflexivity.
    erewrite bind_ok by apply readkey_battle_cons.
    fold (is_up k) (is_down k) (is_enter k).
    destruct (is_up k); [reflexivity|].
    destruct (is_down k); [reflexivity|].
    destruct Hk as [Hk | [Hk | Hk]]; try discriminate. rewrite Hk. reflexivity.
  - step (global_player_battle php ehp [] ls ds o).
    step (global_enemy_battle php ehp [] ls ds o).
    destruct (display_status_battle php ehp [] ls ds o Hp He) as [o1 H1]. step H1.
    erewrite bind_ok by apply print_battle.
    erewrite bind_ok by reflexivity.
    reflexivity.
Qed.

Lemma get_player_action_no_options_witness :
  get_player_action [] (battle 100 80 ["W"; Py.CR] [] [] [])
  = Raise (if is_up "W" || is_down "W" then ZeroDivisionError else IndexError) /\
  get_player_action [] (battle 100 80 [] [] [] []) = Raise NoKey.
Proof.
  apply (get_player_action_no_options "W" [Py.CR] 100 80 [] [] []).
  - lia.
  - lia.
  - left. reflexivity.
Defined.

(** ** main *)





Lemma battle_model_heals_only (ks : list string) :
  heals_only ks ->
  forall (fuel : nat) (turn php : Z) ls ds,
    0 < php <= 100 ->
    Forall (fun d => 10 <= d <= 20) ds ->
    (length ks < fuel)%nat ->
    exists e, battle_model fuel turn php 80 ks ls ds = Raise e /\
              (e = NoKey \/ e = NoDraw \/ e = EOFError).
Proof.
  induction 1 as [ks Hnone | ks ks' Hsel _ IH]; intros fuel turn php ls ds Hp Hd Hfuel;
    (destruct fuel as [|fuel]; [lia|]);
    cbn [battle_model];
    replace (0 <? php) with true by (symmetry; apply Z.ltb_lt; lia); cbn [andb Z.ltb Z.compare];
    unfold round_model.
  - rewrite Hnone. eauto.
  - rewrite Hsel. unfold player_half. cbn [Z.eqb].
    destruct ds as [|d ds1]; [eauto|].
    apply Forall_cons in Hd as [Hd1 Hds].
    destruct ls as [|l1 [|l2 ls2]]; cbn [negb Z.ltb Z.compare]; [eauto|eauto|].
    apply menu_select_range in Hsel as [_ Hlen]; [|lia].
    apply IH; [lia|assumption|lia].
Qed.

(** X8: a player who chooses Heal at every menu neither wins nor loses.
    Each round the heal gives at least the 10 hit points the enemy takes
    (or fills the player up to 100), and the enemy is never attacked: [main]
    goes on until the key presses ([NoKey]), the draws ([NoDraw]) or the
    lines ([EOFError]) run out, and reports no ending. *)
Theorem always_heal_never_ends (ks ls : list string) (ds : list Z)
    (Hheal : heals_only ks)
    (Hd : Forall (fun d => 10 <= d <= 20) ds) :
  exists e, main (start ks ls ds) = Raise e /\ (e = NoKey \/ e = NoDraw \/ e = EOFError).
Proof.
  pose proof (main_runs ks ls ds Hd) as Hmain.
  assert (H100 : 0 < 100 <= 100) by lia.
  destruct (battle_model_heals_only ks Hheal (S (length ks)) 1 100 ls ds H100 Hd ltac:(lia))
    as (e & He & Hcases).
  rewrite He in Hmain. exists e. split; [apply Hmain|exact Hcases].
Qed.

Lemma always_heal_never_ends_witness :
  exists e, main (start ["s"; Py.CR; "S"; Py.LF; "s"] ["a"; "b"; "c"; "d"] [10; 20; 15])
            = Raise e /\ (e = NoKey \/ e = NoDraw \/ e = EOFError).
Proof.
  apply always_heal_never_ends.
  - apply (heals_only_heal _ ["S"; Py.LF; "s"]); [reflexivity|].
    apply (heals_only_heal _ ["s"]); [reflexivity|].
    apply heals_only_wait. reflexivity.
  - repeat constructor; lia.
Defined.

(** ** strip_ansi *)

Lemma strip_from_length (s : string) :
  forall skip, (String.length (strip_from skip s) <= String.length s)%nat.
Proof.
  induction s as [|c s IH]; intros skip; [destruct skip; cbn; lia|].
  cbn [strip_from]. destruct skip as [|k].
  - destruct (ansi_match (String c s)) as [[|k]|]; cbn [String.length].
    + specialize (IH 0%nat). lia.
    + specialize (IH k). lia.
    + specialize (IH 0%nat). lia.
  - cbn [String.length]. specialize (IH k). lia.
Qed.

(** X9: [strip_ansi] returns a text without escape characters as it is,
    removes every colour code the program prints (red, green, yellow, cyan
    and the reset) wherever it stands after such a text, and never makes a
    text longer. *)
Theorem strip_ansi_removes_colour_codes (a b code : string)
    (Ha : esc_free a = true)
    (Hc : In code [Fore.RED; Fore.GREEN; Fore.YELLOW; Fore.CYAN; Style.RESET_ALL]) :
  strip_ansi a = a /\
  strip_ansi (a ++ code ++ b) = a ++ strip_ansi b /\
  (forall s, (String.length (strip_ansi s) <= String.length s)%nat).
Proof.
  unfold strip_ansi. split; [|split].
  - rewrite <- (append_nil_r a) at 1. rewrite (strip_from_esc_free a "" Ha).
    apply append_nil_r.
  - rewrite (strip_from_esc_free a _ Ha). f_equal.
    cbn [In] in Hc. destruct Hc as [<- | [<- | [<- | [<- | [<- | []]]]]]; reflexivity.
  - intros s. apply strip_from_length.
Qed.

Lemma strip_ansi_removes_colour_codes_witness :
  strip_ansi "> " = "> " /\
  strip_ansi ("> " ++ Fore.CYAN ++ "Attack" ++ Style.RESET_ALL) = "> " ++ strip_ansi ("Attack" ++ Style.RESET_ALL) /\
  (forall s, (String.length (strip_ansi s) <= String.length s)%nat).
Proof.
  apply (strip_ansi_removes_colour_codes "> " ("Attack" ++ Style.RESET_ALL) Fore.CYAN).
  - reflexivity.
  - cbn. tauto.
Defined.

Lemma digit_is_not (d c : ascii) :
  in_class CDigit d = true ->
  (nat_of_ascii c < 48 \/ 57 < nat_of_ascii c)%nat ->
  Ascii.eqb d c = false.
Proof.
  cbn [in_class]. intros Hd Hc. apply andb_true_iff in Hd as [H1 H2].
  apply Nat.leb_le in H1, H2.
  apply Ascii.eqb_neq. intros ->. lia.
Qed.

(** X10: the pattern has at most two digits in a number, so an escape
    sequence with a number of three digits (as in the 256-colour codes) is
    not a colour code for [strip_ansi]: it is kept, escape character
    included. *)
Theorem strip_ansi_keeps_three_digits (d1 d2 d3 : ascii) (rest : string)
    (H1 : in_class CDigit d1 = true) (H2 : in_class CDigit d2 = true)
    (H3 : in_class CDigit d3 = true) :
  strip_ansi (Py.ESC ++ "[" ++ String d1 (String d2 (String d3 rest)))
  = Py.ESC ++ "[" ++ String d1 (String d2 (String d3 (strip_ansi rest))).
Proof.
  assert (Hne : forall d, in_class CDigit d = true ->
            Ascii.eqb d "027"%char = false /\ Ascii.eqb d ";"%char = false /\
            Ascii.eqb d "m"%char = false /\ Ascii.eqb d "|"%char = false /\
            Ascii.eqb d "K"%char = false).
  { intros d Hd. repeat split; apply digit_is_not; try assumption;
      solve [left; apply Nat.ltb_lt; reflexivity | right; apply Nat.ltb_lt; reflexivity]. }
  destruct (Hne d1 H1) as (E1 & S1 & M1 & B1 & K1).
  destruct (Hne d2 H2) as (E2 & S2 & M2 & B2 & K2).
  destruct (Hne d3 H3) as (E3 & S3 & M3 & B3 & K3).
  unfold strip_ansi, Py.ESC. cbn [String.append].
  cbn [strip_from].
  assert (Hno : ansi_match (String "027" (String "[" (String d1 (String d2 (String d3 rest)))))
                = None).
  { unfold ansi_match, ansi_shapes. cbn [map find starts_with in_class].
    change (in_class CDigit d1) with (in_class CDigit d1).
    cbn [Ascii.eqb Bool.eqb andb].
    revert H1 H2 H3. cbn [in_class]. intros -> -> ->.
    rewrite ?S1, ?S2, ?S3, ?M1, ?M2, ?M3, ?B1, ?B2, ?B3, ?K1, ?K2, ?K3.
    cbn [andb orb]. reflexivity. }
  rewrite Hno.
  assert (Hc : forall c s, Ascii.eqb c "027"%char = false -> ansi_match (String c s) = None).
  { intros c s Hcs. unfold ansi_match, ansi_shapes. cbn [map find starts_with in_class].
    rewrite Hcs. reflexivity. }
  rewrite (Hc "["%char) by reflexivity.
  destruct rest as [|r rest].
  - cbn [strip_from]. rewrite (Hc d1), (Hc d2), (Hc d3) by assumption. reflexivity.
  - cbn [strip_from]. rewrite (Hc d1), (Hc d2), (Hc d3) by assumption. reflexivity.
Qed.

Lemma strip_ansi_keeps_three_digits_witness :
  strip_ansi (Py.ESC ++ "[" ++ String "1" (String "9" (String "6" "mred")))
  = Py.ESC ++ "[" ++ String "1" (String "9" (String "6" (strip_ansi "mred"))).
Proof.
  apply (strip_ansi_keeps_three_digits "1" "9" "6" "mred"); reflexivity.
Defined.

(** ** The health bar of a character within its limits *)

(** *** Shifting a mantissa by several bits *)

Lemma iter_pos_nat {A} (f : A -> A) (p : positive) (x : A) :
  SpecFloat.iter_pos f p x = Nat.iter (Pos.to_nat p) f x.
Proof.
  revert x. induction p as [p IH|p IH|]; intros x; cbn [SpecFloat.iter_pos].
  - rewrite !IH. rewrite Pos2Nat.inj_xI.
    replace (S (2 * Pos.to_nat p)) with (Pos.to_nat p + (Pos.to_nat p + 1))%nat by lia.
    rewrite !Nat.iter_add. reflexivity.
  - rewrite !IH. rewrite Pos2Nat.inj_xO.
    replace (2 * Pos.to_nat p)%nat with (Pos.to_nat p + Pos.to_nat p)%nat by lia.
    rewrite Nat.iter_add. reflexivity.
  - reflexivity.
Qed.

Lemma shr_1_spec (r : shr_record) :
  0 <= shr_m r ->
  shr_m (shr_1 r) = shr_m r / 2 /\
  (shr_r r = false -> shr_s r = false -> Z.even (shr_m r) = true ->
   shr_r (shr_1 r) = false /\ shr_s (shr_1 r) = false).
Proof.
  destruct r as [m r s]. cbn [shr_m shr_r shr_s]. intros Hm.
  rewrite <- Z.div2_div.
  destruct m as [|[p|p|]|p]; try lia; cbn; (split; [reflexivity|]);
    intros -> -> He; try discriminate; split; reflexivity.
Qed.

(** After [n] shifts the mantissa is divided by [2^n]; when the division
    is exact nothing is remembered of the bits that left. *)
Lemma shr_iter_spec (n : nat) (m : Z) :
  0 <= m ->
  let r := Nat.iter n shr_1 (Build_shr_record m false false) in
  shr_m r = m / 2 ^ Z.of_nat n /\
  (m mod 2 ^ Z.of_nat n = 0 -> shr_r r = false /\ shr_s r = false).
Proof.
  intros Hm. induction n as [|n IH]; cbn zeta.
  - cbn [Nat.iter shr_m shr_r shr_s]. rewrite Z.div_1_r. auto.
  - rewrite !Nat.iter_succ. cbn zeta in IH. destruct IH as [IHm IHb].
    set (r := Nat.iter n shr_1 (Build_shr_record m false false)) in *.
    assert (Hr : 0 <= shr_m r) by (rewrite IHm; apply Z.div_pos; lia).
    destruct (shr_1_spec r Hr) as [Hm1 Hb1].
    assert (Hpow : 2 ^ Z.of_nat (S n) = 2 ^ Z.of_nat n * 2).
    { rewrite Nat2Z.inj_succ, Z.pow_succ_r by lia. lia. }
    split.
    + rewrite Hm1, IHm, Hpow. rewrite Z.div_div by lia. reflexivity.
    + intros Hmod.
      assert (Hpos : 0 < 2 ^ Z.of_nat n) by (apply Z.pow_pos_nonneg; lia).
      assert (Hdiv : m = 2 ^ Z.of_nat n * 2 * (m / (2 ^ Z.of_nat n * 2))).
      { rewrite Hpow in Hmod. pose proof (Z.div_mod m (2 ^ Z.of_nat n * 2) ltac:(lia)). lia. }
      assert (Hmod' : m mod 2 ^ Z.of_nat n = 0).
      { rewrite Hdiv. rewrite <- Z.mul_assoc, Z.mul_comm. apply Z.mod_mul. lia. }
      destruct (IHb Hmod') as [Hrr Hrs].
      apply Hb1; try assumption.
      rewrite IHm. rewrite Hdiv at 1.
      rewrite <- Z.mul_assoc, Z.mul_comm, Z.div_mul by lia.
      rewrite Z.even_mul. reflexivity.
Qed.

(** Rounding a mantissa of 53 digits, with the mantissa of the result. *)
Lemma binary_round_aux_53_value (s : bool) (m e : Z) (l : location) :
  2 ^ 52 <= m < 2 ^ 53 -> -1074 <= e <= 970 ->
  exists (mX : positive) (eX : Z),
    binary_round_aux Py.prec Py.emax s m e l = S754_finite s mX eX /\
    ((eX = e /\ Zpos mX = round_nearest_even m l /\ Zpos mX < 2 ^ 53) \/
     (eX = e + 1 /\ Zpos mX = 2 ^ 52 /\ round_nearest_even m l = 2 ^ 53)).
Proof.
  intros Hm He. unfold binary_round_aux.
  rewrite shr_fexp_53 by lia.
  rewrite shr_m_record_of_loc, loc_of_shr_record_of_loc.
  set (q := round_nearest_even m l).
  assert (Hq : q = m \/ q = m + 1) by apply round_nearest_even_cases.
  destruct (Z.eq_dec q (2 ^ 53)) as [Hcarry | Hno].
  - rewrite Hcarry. exists (4503599627370496)%positive, (e + 1).
    rewrite shr_fexp_54 by lia.
    cbn [shr_record_of_loc shr_1 shr_m Z.pow Z.pow_pos Pos.iter Z.mul Pos.mul].
    replace (e + 1 <=? Py.emax - Py.prec) with true
      by (symmetry; apply Z.leb_le; unfold Py.emax, Py.prec; lia).
    split; [reflexivity|]. right. split; [reflexivity|]. split; reflexivity.
  - rewrite shr_fexp_53 by lia. cbn [shr_record_of_loc shr_m].
    destruct q as [|p|p] eqn:Hp; try lia.
    exists p, e.
    replace (e <=? Py.emax - Py.prec) with true
      by (symmetry; apply Z.leb_le; unfold Py.emax, Py.prec; lia).
    split; [reflexivity|]. left. split; [reflexivity|]. split; [reflexivity|lia].
Qed.

(** Rounding an exact mantissa of [53 + n] digits: [n] bits are shifted
    out, and the mantissa left, [k], is the quotient by [2^n] or one more;
    it is the quotient when the division is exact. *)
Lemma binary_round_aux_exact (s : bool) (m e n : Z) :
  0 < n -> 2 ^ (52 + n) <= m < 2 ^ (53 + n) -> -1074 <= e + n <= 969 ->
  exists (mX : positive) (eX k : Z),
    binary_round_aux Py.prec Py.emax s m e loc_Exact = S754_finite s mX eX /\
    m / 2 ^ n <= k <= m / 2 ^ n + 1 /\
    (m mod 2 ^ n = 0 -> k = m / 2 ^ n) /\
    ((eX = e + n /\ Zpos mX = k /\ k < 2 ^ 53) \/
     (eX = e + n + 1 /\ Zpos mX = 2 ^ 52 /\ k = 2 ^ 53)).
Proof.
  intros Hn Hm He.
  assert (Hpos : 0 < 2 ^ n) by (apply Z.pow_pos_nonneg; lia).
  assert (Hm0 : 0 < m).
  { assert (0 < 2 ^ (52 + n)) by (apply Z.pow_pos_nonneg; lia). lia. }
  assert (Hsplit52 : 2 ^ (52 + n) = 2 ^ 52 * 2 ^ n) by (apply Z.pow_add_r; lia).
  assert (Hsplit53 : 2 ^ (53 + n) = 2 ^ 53 * 2 ^ n) by (apply Z.pow_add_r; lia).
  assert (Hm1 : 2 ^ 52 <= m / 2 ^ n < 2 ^ 53).
  { split; [apply Z.div_le_lower_bound; lia|apply Z.div_lt_upper_bound; lia]. }
  destruct n as [|p|p]; try lia.
  pose proof (shr_iter_spec (Pos.to_nat p) m ltac:(lia)) as Hiter. cbn zeta in Hiter.
  rewrite positive_nat_Z in Hiter.
  set (r := Nat.iter (Pos.to_nat p) shr_1 (Build_shr_record m false false)) in *.
  destruct Hiter as [Hrm Hrb].
  assert (Hshift : shr_fexp Py.prec Py.emax m e loc_Exact = (r, e + Z.pos p)).
  { unfold shr_fexp.
    assert (Hdig : 2 ^ (53 + Z.pos p - 1) <= m < 2 ^ (53 + Z.pos p)).
    { replace (53 + Z.pos p - 1) with (52 + Z.pos p) by lia. exact Hm. }
    rewrite (Zdigits2_unique m (53 + Z.pos p) Hdig Hm0).
    replace (fexp Py.prec Py.emax (53 + Z.pos p + e) - e) with (Z.pos p)
      by (unfold fexp, emin, Py.prec, Py.emax; lia).
    unfold shr. rewrite iter_pos_nat. reflexivity. }
  assert (Heq : binary_round_aux Py.prec Py.emax s m e loc_Exact
                = binary_round_aux Py.prec Py.emax s (shr_m r) (e + Z.pos p)
                    (loc_of_shr_record r)).
  { unfold binary_round_aux. rewrite Hshift.
    rewrite (shr_fexp_53 (shr_m r)) by (rewrite ?Hrm; lia).
    rewrite shr_record_of_loc_of_record. reflexivity. }
  rewrite Heq.
  destruct (binary_round_aux_53_value s (shr_m r) (e + Z.pos p) (loc_of_shr_record r))
    as (mX & eX & Hres & Hcase); [rewrite Hrm; lia|lia|].
  exists mX, eX, (round_nearest_even (shr_m r) (loc_of_shr_record r)).
  split; [exact Hres|].
  pose proof (round_nearest_even_cases (shr_m r) (loc_of_shr_record r)) as Hk.
  rewrite Hrm in Hk |- *.
  split; [lia|]. split.
  - intros Hmod. destruct (Hrb Hmod) as [Hr1 Hr2].
    destruct r as [rm rr rs]. cbn in Hr1, Hr2, Hrm |- *. subst rr rs. cbn. reflexivity.
  - rewrite Hrm in Hcase. destruct Hcase as [(-> & Hmx & Hlt) | (-> & Hmx & Hc)].
    + left. split; [reflexivity|]. split; [exact Hmx|]. rewrite <- Hmx. exact Hlt.
    + right. split; [lia|]. split; [exact Hmx|exact Hc].
Qed.

(** *** The ratio of a character within its limits, as a float *)

Lemma truediv_small_bounds (a b : Z) (sgn : bool) :
  0 < a < 2 ^ 53 -> 0 < b < 2 ^ 53 ->
  exists (mF : positive) (eF : Z),
    (let '(q, e, l) := SFdiv_core_binary Py.prec Py.emax a 0 b 0 in
     binary_round_aux Py.prec Py.emax sgn q e l) = S754_finite sgn mF eF /\
    2 ^ 52 <= Zpos mF < 2 ^ 53 /\ -105 <= eF <= 54.
Proof.
  intros Ha Hb.
  pose proof (Zdigits2_le_53 a Ha) as Hda. pose proof (Zdigits2_le_53 b Hb) as Hdb.
  pose proof (Zdigits2_bounds a ltac:(lia)) as Hba.
  pose proof (Zdigits2_bounds b ltac:(lia)) as Hbb.
  rewrite SFdiv_core_small by assumption.
  set (d1 := Zdigits2 a) in *. set (d2 := Zdigits2 b) in *.
  set (s := 53 - d1 + d2).
  rewrite (pow2_split d1) in Hba by lia. rewrite (pow2_split d2) in Hbb by lia.
  assert (Hrel : 2 ^ (d1 - 1) * 2 ^ s = 2 * 2 ^ 52 * 2 ^ (d2 - 1)).
  { rewrite <- Z.pow_add_r by (subst s; lia).
    replace (2 * 2 ^ 52) with (2 ^ 53) by reflexivity.
    rewrite <- Z.pow_add_r by lia. f_equal. subst s. lia. }
  assert (HX1 : 0 < 2 ^ (d1 - 1)) by (apply Z.pow_pos_nonneg; lia).
  assert (HX2 : 0 < 2 ^ (d2 - 1)) by (apply Z.pow_pos_nonneg; lia).
  assert (HP : 0 < 2 ^ s) by (apply Z.pow_pos_nonneg; subst s; lia).
  pose proof (Z.div_mod (a * 2 ^ s) b ltac:(lia)) as Hdiv.
  pose proof (Z.mod_pos_bound (a * 2 ^ s) b ltac:(lia)) as Hr.
  set (q := a * 2 ^ s / b) in *. set (r := (a * 2 ^ s) mod b) in *.
  assert (H53 : 2 ^ 53 = 2 * 2 ^ 52) by reflexivity.
  assert (H54 : 2 ^ 54 = 4 * 2 ^ 52) by reflexivity.
  assert (HT : 0 < 2 ^ 52) by reflexivity.
  rewrite H53 in Ha, Hb.
  assert (Hq : 2 ^ 52 <= q < 4 * 2 ^ 52).
  { generalize dependent (2 ^ 52). generalize dependent (2 ^ s).
    generalize dependent (2 ^ (d1 - 1)). generalize dependent (2 ^ (d2 - 1)).
    intros X2 ? ? X1 ? ? P ? ? ? T ? ? ? ? ?. split; nia. }
  assert (Hs : 1 <= s <= 105) by (subst s; lia).
  destruct (Z.lt_ge_cases q (2 * 2 ^ 52)) as [Hlt | Hge].
  - destruct (binary_round_aux_53 sgn q (- s) (new_location b r))
      as (mF & eF & Hres & HmF & Hcase); [rewrite H53; lia|lia|].
    exists mF, eF. split; [exact Hres|]. split; [exact HmF|].
    destruct Hcase as [[-> _] | (-> & _)]; lia.
  - destruct (binary_round_aux_54 sgn q (- s) (new_location b r))
      as (mF & eF & Hres & HmF & Hcase); [rewrite H53, H54; lia|lia|].
    exists mF, eF. split; [exact Hres|]. split; [exact HmF|].
    destruct Hcase as [-> | [-> _]]; lia.
Qed.

(** [hp / max_hp] for [0 < hp <= max_hp < 2^53] is a float that is at most
    1, and is 1 when [hp = max_hp]. *)
Lemma percent_at_most_one (a b : Z) :
  0 < a <= b -> b < 2 ^ 53 ->
  exists (mF : positive) (eF : Z),
    Py.int_truediv a b = Ok (S754_finite false mF eF) /\
    2 ^ 52 <= Zpos mF < 2 ^ 53 /\ -105 <= eF <= -52 /\
    Zpos mF <= 2 ^ (- eF) /\
    (a = b -> Zpos mF = 2 ^ (- eF)).
Proof.
  intros Hab Hb. unfold Py.int_truediv.
  destruct (Z.eqb_spec b 0) as [?|_]; [lia|].
  destruct (Z.eqb_spec a 0) as [?|_]; [lia|].
  rewrite (Z.abs_eq a), (Z.abs_eq b) by lia.
  replace (a <? 0) with false by (symmetry; apply Z.ltb_ge; lia).
  replace (b <? 0) with false by (symmetry; apply Z.ltb_ge; lia).
  cbn [xorb].
  destruct (Z.eq_dec a b) as [-> | Hne].
  - (* the quotient is 1 *)
    rewrite SFdiv_core_small by lia.
    replace (53 - Zdigits2 b + Zdigits2 b) with 53 by lia.
    rewrite Z.mul_comm, Z.div_mul, Z.mod_mul by lia.
    assert (Hloc : new_location b 0 = loc_Exact).
    { unfold new_location, new_location_even, new_location_odd.
      destruct (Z.even b); reflexivity. }
    rewrite Hloc.
    exists 4503599627370496%positive, (-52).
    split; [vm_compute; reflexivity|]. split; [split; reflexivity|].
    split; [lia|]. split; [reflexivity|]. intros _. reflexivity.
  - destruct (truediv_small_threshold a b false ltac:(lia) ltac:(lia))
      as (mF & eF & Hres & _ & Hthr).
    destruct (truediv_small_bounds a b false ltac:(lia) ltac:(lia))
      as (mF' & eF' & Hres' & HmF & HeF).
    rewrite Hres in Hres'. injection Hres' as <- <-.
    destruct (SFdiv_core_binary Py.prec Py.emax a 0 b 0) as [[q e] l].
    rewrite Hres. exists mF, eF. split; [reflexivity|]. split; [exact HmF|].
    pose proof (Hthr 0 ltac:(lia)) as H0. change (2 ^ 0) with 1 in H0.
    rewrite Z.mul_1_l in H0.
    replace (a <? b) with true in H0 by (symmetry; apply Z.ltb_lt; lia).
    apply Z.ltb_lt in H0.
    split; [lia|]. split; [|intros; lia].
    assert (2 ^ 53 <= 2 ^ (- eF)) by (apply Z.pow_le_mono_r; lia). lia.
Qed.

Lemma pos_iter_xO (p q : positive) : Zpos (Pos.iter xO p q) = Zpos p * 2 ^ Zpos q.
Proof.
  induction q as [|q IH] using Pos.peano_ind.
  - cbn. lia.
  - rewrite Pos.iter_succ, Pos2Z.inj_xO, IH, Pos2Z.inj_succ, Z.pow_succ_r by lia. lia.
Qed.

(** [float(L)] for [0 < L < 2^53] is [L] itself: a mantissa of 53 digits
    and an exponent that is not positive. *)
Lemma float_of_int_small (L : Z) :
  0 < L < 2 ^ 53 ->
  exists (mL : positive) (eL : Z),
    Py.float_of_int L = Ok (S754_finite false mL eL) /\
    2 ^ 52 <= Zpos mL < 2 ^ 53 /\ -52 <= eL <= 0 /\
    Zpos mL = L * 2 ^ (- eL).
Proof.
  intros HL. destruct L as [|p|p]; try lia.
  pose proof (Zdigits2_le_53 (Zpos p) HL) as Hd.
  pose proof (Zdigits2_bounds (Zpos p) ltac:(lia)) as Hb.
  cbn [Zdigits2] in Hd, Hb.
  unfold Py.float_of_int, binary_normalize, binary_round.
  set (d := Z.pos (digits2_pos p)) in *.
  replace (fexp Py.prec Py.emax (d + 0)) with (d - 53)
    by (unfold fexp, emin, Py.prec, Py.emax; lia).
  unfold shl_align.
  destruct (d - 53 - 0) as [|t|t] eqn:Ht; try lia.
  - (* 53 digits already *)
    assert (Hd53 : d = 53) by lia. rewrite Hd53 in Hb.
    destruct (binary_round_aux_53_value false (Zpos p) 0 loc_Exact)
      as (mX & eX & Hres & Hcase); [change (53 - 1) with 52 in Hb; lia|lia|].
    rewrite Hres. cbn [round_nearest_even] in Hcase.
    destruct Hcase as [(-> & Hmx & _) | (_ & _ & Hc)]; [|lia].
    exists mX, 0. split; [reflexivity|]. rewrite Hmx.
    change (53 - 1) with 52 in Hb. split; [lia|]. split; [lia|].
    change (2 ^ (- 0)) with 1. lia.
  - (* shifted to 53 digits *)
    assert (Hpow : Zpos (Pos.iter xO p t) = Zpos p * 2 ^ Zpos t) by apply pos_iter_xO.
    assert (Htd : Z.pos t = 53 - d) by lia.
    assert (Hm : 2 ^ 52 <= Zpos p * 2 ^ Zpos t < 2 ^ 53).
    { assert (H52 : 2 ^ 52 = 2 ^ (d - 1) * 2 ^ Zpos t).
      { rewrite <- Z.pow_add_r by lia. f_equal. lia. }
      assert (H53 : 2 ^ 53 = 2 ^ d * 2 ^ Zpos t).
      { rewrite <- Z.pow_add_r by lia. f_equal. lia. }
      assert (0 < 2 ^ Zpos t) by (apply Z.pow_pos_nonneg; lia).
      rewrite H52, H53. split; [apply Z.mul_le_mono_nonneg_r; lia|].
      apply Z.mul_lt_mono_pos_r; lia. }
    destruct (binary_round_aux_53_value false (Zpos (Pos.iter xO p t)) (d - 53) loc_Exact)
      as (mX & eX & Hres & Hcase); [rewrite Hpow; exact Hm|lia|].
    rewrite Hres. cbn [round_nearest_even] in Hcase.
    destruct Hcase as [(-> & Hmx & _) | (_ & _ & Hc)]; [|rewrite Hpow in Hc; lia].
    exists mX, (d - 53). split; [reflexivity|]. rewrite Hmx, Hpow.
    split; [exact Hm|]. split; [lia|].
    replace (- (d - 53)) with (Zpos t) by lia. reflexivity.
Qed.

(** *** The product with the length, and its integer part *)

Lemma product_fits (mL mF : positive) (eL eF L : Z) :
  2 ^ 52 <= Zpos mL < 2 ^ 53 -> -52 <= eL <= 0 -> Zpos mL = L * 2 ^ (- eL) ->
  2 ^ 52 <= Zpos mF < 2 ^ 53 -> -105 <= eF <= -52 -> Zpos mF <= 2 ^ (- eF) ->
  exists n,
    Py.int_of_float
      (SFmul Py.prec Py.emax (S754_finite false mL eL) (S754_finite false mF eF)) = Ok n /\
    0 <= n <= L /\
    (Zpos mF = 2 ^ (- eF) -> n = L).
Proof.
  intros HmL HeL HL HmF HeF Hle.
  cbn [SFmul xorb]. rewrite Pos2Z.inj_mul.
  set (A := Zpos mL) in *. set (F := Zpos mF) in *.
  assert (H104 : 2 ^ 104 = 2 ^ 52 * 2 ^ 52) by reflexivity.
  assert (H105 : 2 ^ 105 = 2 * (2 ^ 52 * 2 ^ 52)) by reflexivity.
  assert (H106 : 2 ^ 106 = 4 * (2 ^ 52 * 2 ^ 52)) by reflexivity.
  assert (H53 : 2 ^ 53 = 2 * 2 ^ 52) by reflexivity.
  assert (HT : 0 < 2 ^ 52) by reflexivity.
  assert (HL0 : 0 < L < 2 ^ 53).
  { assert (0 < 2 ^ (- eL)) by (apply Z.pow_pos_nonneg; lia).
    assert (1 <= 2 ^ (- eL)) by lia. split; nia. }
  (* the number of bits to shift out *)
  assert (Hn1 : exists n1, (n1 = 52 \/ n1 = 53) /\ 2 ^ (52 + n1) <= A * F < 2 ^ (53 + n1) /\
                           n1 <= - eF).
  { destruct (Z.lt_ge_cases (A * F) (2 ^ 105)) as [Hlt | Hge].
    - exists 52. split; [auto|]. split; [|lia].
      change (52 + 52) with 104. change (53 + 52) with 105. rewrite H104.
      split; [|exact Hlt]. rewrite H53 in *. nia.
    - exists 53. split; [auto|].
      change (52 + 53) with 105. change (53 + 53) with 106. rewrite H106.
      split; [split; [exact Hge|rewrite H53 in *; nia]|].
      destruct (Z.eq_dec eF (-52)) as [-> | ?]; [|lia].
      change (2 ^ (- -52)) with (2 ^ 52) in Hle.
      rewrite H105 in Hge. rewrite H53 in *. nia. }
  destruct Hn1 as (n1 & Hn1 & HM & Ht).
  assert (Hn1r : 52 <= n1 <= 53) by (destruct Hn1 as [-> | ->]; split; discriminate).
  destruct (binary_round_aux_exact false (A * F) (eL + eF) n1)
    as (mX & eX & k & Hres & Hk & Hexact & Hcase); [lia|exact HM|lia|].
  rewrite Hres. cbn [Py.int_of_float cond_Zopp].
  set (eK := eL + eF + n1) in *.
  replace (eL + eF + n1) with eK in * by reflexivity.
  (* the powers involved *)
  set (t := - eF - n1).
  assert (Ht0 : 0 <= t) by (subst t; lia).
  assert (HeK : eK <= 0) by (subst eK; lia).
  assert (Hp1 : 2 ^ (- eF) = 2 ^ t * 2 ^ n1).
  { rewrite <- Z.pow_add_r by lia. f_equal. subst t. lia. }
  assert (Hp2 : 2 ^ (- eK) = 2 ^ (- eL) * 2 ^ t).
  { rewrite <- Z.pow_add_r by lia. f_equal. subst t eK. lia. }
  assert (Hpt : 0 < 2 ^ t) by (apply Z.pow_pos_nonneg; lia).
  assert (Hpn : 0 < 2 ^ n1) by (apply Z.pow_pos_nonneg; lia).
  assert (HpL : 0 < 2 ^ (- eL)) by (apply Z.pow_pos_nonneg; lia).
  assert (HpK : 0 < 2 ^ (- eK)) by (apply Z.pow_pos_nonneg; lia).
  set (j := A * 2 ^ t).
  assert (Hj : j = L * 2 ^ (- eK)) by (subst j; rewrite Hp2, HL; ring).
  assert (HMj : A * F <= j * 2 ^ n1).
  { subst j. rewrite <- Z.mul_assoc, <- Hp1. apply Z.mul_le_mono_nonneg_l; lia. }
  assert (Hkj : k <= j).
  { assert (Hq : A * F / 2 ^ n1 <= j).
    { apply Z.div_le_upper_bound; [lia|]. rewrite (Z.mul_comm (2 ^ n1) j). exact HMj. }
    destruct (Z.eq_dec (A * F / 2 ^ n1) j) as [Heq | Hneq]; [|lia].
    assert (Hback : 2 ^ n1 * (A * F / 2 ^ n1) <= A * F) by (apply Z.mul_div_le; lia).
    rewrite Heq in Hback.
    assert (HMeq : A * F = j * 2 ^ n1) by lia.
    rewrite Hexact; [lia|]. rewrite HMeq. apply Z.mod_mul. lia. }
  assert (Hkexact : F = 2 ^ (- eF) -> k = j).
  { intros HF. assert (HMeq : A * F = j * 2 ^ n1) by (subst j; rewrite HF, Hp1; ring).
    rewrite Hexact; [|rewrite HMeq; apply Z.mod_mul; lia].
    rewrite HMeq. apply Z.div_mul. lia. }
  assert (Hk0 : 0 <= k).
  { assert (0 <= A * F / 2 ^ n1) by (apply Z.div_pos; [subst A F|]; lia). lia. }
  destruct Hcase as [(-> & -> & Hlt) | (-> & -> & Hc)].
  - (* no carry *)
    exists (k / 2 ^ (- eK)). rewrite Z.shiftl_div_pow2 by lia.
    split; [reflexivity|]. split; [split|].
    + apply Z.div_pos; lia.
    + apply Z.div_le_upper_bound; [lia|]. rewrite (Z.mul_comm (2 ^ (- eK)) L), <- Hj. exact Hkj.
    + intros HF. rewrite (Hkexact HF), Hj. apply Z.div_mul. lia.
  - (* carry into the next binade *)
    assert (HeK1 : eK + 1 <= 0).
    { destruct (Z.eq_dec eK 0) as [E0 | ?]; [|lia].
      rewrite E0 in Hj. change (2 ^ (- 0)) with 1 in Hj. lia. }
    assert (Hp3 : 2 ^ (- eK) = 2 * 2 ^ (- (eK + 1))).
    { rewrite <- Z.pow_succ_r by lia. f_equal. lia. }
    assert (HpU : 0 < 2 ^ (- (eK + 1))) by (apply Z.pow_pos_nonneg; lia).
    exists (2 ^ 52 / 2 ^ (- (eK + 1))). rewrite Z.shiftl_div_pow2 by lia.
    split; [reflexivity|]. split; [split|].
    + apply Z.div_pos; lia.
    + apply Z.div_le_upper_bound; [lia|].
      rewrite Hc, Hj, Hp3, H53 in Hkj.
      generalize dependent (2 ^ (- (eK + 1))). generalize dependent (2 ^ 52).
      intros. nia.
    + intros HF. pose proof (Hkexact HF) as Hkj'.
      rewrite Hc, Hj, Hp3, H53 in Hkj'.
      assert (HLU : 2 ^ 52 = L * 2 ^ (- (eK + 1))) by lia.
      rewrite HLU. apply Z.div_mul. lia.
Qed.

Lemma filled_length_fits (hp max_hp L : Z) :
  0 < max_hp < 2 ^ 53 -> 0 <= hp <= max_hp -> 0 <= L < 2 ^ 53 ->
  exists n,
    filled_length_of hp max_hp L = Ok n /\
    0 <= n <= L /\ (hp = 0 -> n = 0) /\ (hp = max_hp -> n = L).
Proof.
  intros Hm Hh HL. unfold filled_length_of, percent_of, Py.int_mul_float.
  destruct (Z.eq_dec hp 0) as [-> | Hhp].
  - (* the ratio is 0 *)
    unfold Py.int_truediv.
    replace (max_hp =? 0) with false by (symmetry; apply Z.eqb_neq; lia).
    replace (max_hp <? 0) with false by (symmetry; apply Z.ltb_ge; lia).
    cbn [Z.eqb].
    destruct (Z.eq_dec L 0) as [-> | HL0].
    + exists 0. split; [reflexivity|]. lia.
    + destruct (float_of_int_small L ltac:(lia)) as (mL & eL & HfL & _).
      rewrite HfL. exists 0. split; [reflexivity|]. lia.
  - destruct (percent_at_most_one hp max_hp ltac:(lia) ltac:(lia))
      as (mF & eF & Hper & HmF & HeF & Hle & Hone).
    rewrite Hper.
    destruct (Z.eq_dec L 0) as [-> | HL0].
    + exists 0. split; [reflexivity|]. lia.
    + destruct (float_of_int_small L ltac:(lia)) as (mL & eL & HfL & HmL & HeL & HLm).
      rewrite HfL.
      destruct (product_fits mL mF eL eF L HmL HeL HLm HmF HeF Hle) as (n & Hn & Hrange & Hfull).
      exists n. split; [exact Hn|]. split; [exact Hrange|]. split; [lia|].
      intros Heq. apply Hfull, Hone, Heq.
Qed.



(** ** display_status for characters within their limits *)

Lemma get_health_bar_in_range (hp max_hp : Z) :
  0 < max_hp < 2 ^ 53 -> 0 <= hp <= max_hp ->
  exists s, get_health_bar hp max_hp None = Ok s.
Proof.
  intros Hm Hh.
  destruct (filled_length_fits hp max_hp 20 Hm Hh ltac:(split; [discriminate|reflexivity]))
    as (n & Hn & _).
  pose proof (get_health_bar_eq hp max_hp None) as Heq. cbn [default] in Heq.
  change (from_option id 20 None) with 20 in Heq. rewrite Hn in Heq.
  destruct (percent_of hp max_hp) as [percent|e] eqn:Hper.
  - eexists. exact Heq.
  - unfold filled_length_of in Hn. rewrite Hper in Hn. discriminate.
Qed.

(** X12: for two characters within their limits, whatever else the world
    holds, [display_status] never raises: it clears the screen and prints
    seven lines after it (a title, and for each character its name and its
    bar of the default length), and changes nothing else. *)
Theorem display_status_prints_the_screen (w : World) (p e : ref) (pc ec : Character.t)
    (Hp : mem w !! p = Some pc) (He : mem w !! e = Some ec)
    (Hpl : within_limits pc) (Hel : within_limits ec) :
  exists bp be w',
    get_health_bar (Character.hp pc) (Character.max_hp pc) None = Ok bp /\
    get_health_bar (Character.hp ec) (Character.max_hp ec) None = Ok be /\
    display_status p e w = Ok (tt, w') /\
    out w' = (out w ++ status_screen pc ec bp be)%list /\
    (mem w', player w', enemy w', keys w', lines w', draws w')
    = (mem w, player w, enemy w, keys w, lines w, draws w).
Proof.
  destruct Hpl as [Hph Hpm]. destruct Hel as [Heh Hem].
  destruct (get_health_bar_in_range _ _ Hpm Hph) as [bp Hbp].
  destruct (get_health_bar_in_range _ _ Hem Heh) as [be Hbe].
  exists bp, be. eexists. split; [exact Hbp|]. split; [exact Hbe|].
  unfold display_status, os_system_clear, print, emit, load, lift, bind.
  cbn -[get_health_bar]. rewrite Hp. cbn -[get_health_bar]. rewrite Hbp.
  cbn -[get_health_bar]. rewrite He. cbn -[get_health_bar]. rewrite Hbe.
  cbn -[get_health_bar].
  split; [reflexivity|]. cbn. split; [|reflexivity].
  unfold status_screen. rewrite <- !app_assoc. reflexivity.
Qed.

Lemma display_status_prints_the_screen_witness :
  exists bp be w',
    get_health_bar 100 250 None = Ok bp /\
    get_health_bar 4500 9000 None = Ok be /\
    display_status 0%nat 1%nat skirmish = Ok (tt, w') /\
    out w' = (out skirmish
              ++ status_screen (Character.mk "Knight" 250 100 30)
                   (Character.mk "Dragon" 9000 4500 120) bp be)%list /\
    (mem w', player w', enemy w', keys w', lines w', draws w')
    = (mem skirmish, player skirmish, enemy skirmish, keys skirmish, lines skirmish,
       draws skirmish).
Proof.
  apply (display_status_prints_the_screen skirmish 0%nat 1%nat
           (Character.mk "Knight" 250 100 30) (Character.mk "Dragon" 9000 4500 120)
           eq_refl eq_refl).
  - unfold within_limits; cbn. repeat split; reflexivity || discriminate.
  - unfold within_limits; cbn. repeat split; reflexivity || discriminate.
Defined.
